(** * simplestream-maintainer: catalogue build, discovery and pruning

    A shallow embedding of the [stream] package (product, version and item
    discovery, checksum files) and of the [build] command of
    simplestream-maintainer, with the properties its specification states.

    Go strings are byte strings and are embedded as [string]; Go maps with
    string keys are embedded as [gmap string _]; a map that may be [nil] and
    is written to, or tested against [nil], is an [option (gmap string _)].
    Code that can fail returns a [result], which also records run-time
    panics. *)

From stdpp Require Import gmap strings list fin_maps sorting.
From Stdlib Require Import ZArith Lia Ascii.

Open Scope Z_scope.

(** ** Results of fallible code *)

Inductive error : Type :=
  | ErrVersionIncomplete (versionRelPath : string)
  | ErrVersionInvalidImageConfig
  | ErrProductInvalidPath
  | ErrNotExist (path : string)
  | ErrOther (msg : string).

Inductive result (A : Type) : Type :=
  | Ok (a : A)
  | Err (e : error)
  | Panic (msg : string).
Arguments Ok {A} a.
Arguments Err {A} e.
Arguments Panic {A} msg.

#[global] Instance result_bind : MBind result := λ A B k r,
  match r with
  | Ok a => k a
  | Err e => Err e
  | Panic m => Panic m
  end.

Definition is_Ok {A} (r : result A) : Prop := ∃ a, r = Ok a.

(** errors.Is(err, target) for the sentinel errors of the package. *)
Definition errors_Is (e target : error) : bool :=
  match e, target with
  | ErrVersionIncomplete _, ErrVersionIncomplete _ => true
  | ErrVersionInvalidImageConfig, ErrVersionInvalidImageConfig => true
  | ErrProductInvalidPath, ErrProductInvalidPath => true
  | ErrNotExist _, ErrNotExist _ => true
  | _, _ => false
  end.

(** ** The Go standard library functions the code calls *)

Definition LF : string := String "010" "".
Definition TAB : string := String "009" "".

Module go_strings.

Definition byte_eqb (a b : ascii) : bool := bool_decide (a = b).

(** strings.HasPrefix *)
Fixpoint HasPrefix (s prefix : string) : bool :=
  match prefix, s with
  | "", _ => true
  | String p prefix', String c s' => byte_eqb c p && HasPrefix s' prefix'
  | String _ _, "" => false
  end.

(** strings.HasSuffix: [s] ends with [suffix]. *)
Fixpoint HasSuffix (s suffix : string) : bool :=
  bool_decide (s = suffix) ||
  match s with
  | "" => false
  | String _ s' => HasSuffix s' suffix
  end.

(** strings.Contains for a one-byte needle. *)
Fixpoint ContainsByte (s : string) (b : ascii) : bool :=
  match s with
  | "" => false
  | String c s' => byte_eqb c b || ContainsByte s' b
  end.

(** strings.Split(s, sep) for a one-byte separator: the pieces between
    the separators, one more than there are separators. *)
Fixpoint Split (s : string) (sep : ascii) : list string :=
  match s with
  | "" => [""]
  | String c s' =>
      if byte_eqb c sep then "" :: Split s' sep
      else match Split s' sep with
           | p :: ps => String c p :: ps
           | [] => [String c ""]
           end
  end.

(** strings.Cut(s, sep) for a one-byte separator: the text before and
    after the first separator. *)
Fixpoint Cut (s : string) (sep : ascii) : option (string * string) :=
  match s with
  | "" => None
  | String c s' =>
      if byte_eqb c sep then Some ("", s')
      else match Cut s' sep with
           | Some (before, after) => Some (String c before, after)
           | None => None
           end
  end.

(** strings.SplitN(s, sep, 2): at most two pieces. *)
Definition SplitN2 (s : string) (sep : ascii) : list string :=
  match Cut s sep with
  | Some (before, after) => [before; after]
  | None => [s]
  end.

(** strings.Join *)
Fixpoint Join (elems : list string) (sep : string) : string :=
  match elems with
  | [] => ""
  | [e] => e
  | e :: rest => e +:+ sep +:+ Join rest sep
  end.

(** strings.ReplaceAll(s, old, "") for a one-byte [old]. *)
Fixpoint RemoveByte (s : string) (old : ascii) : string :=
  match s with
  | "" => ""
  | String c s' =>
      if byte_eqb c old then RemoveByte s' old else String c (RemoveByte s' old)
  end.

(** strings.CutSuffix *)
Fixpoint CutSuffix (s suffix : string) : string * bool :=
  if bool_decide (s = suffix) then ("", true)
  else match s with
       | "" => ("", false)
       | String c s' =>
           let '(before, found) := CutSuffix s' suffix in
           (String c before, found)
       end.

(** *** White space (unicode.IsSpace) in UTF-8

    The runes Go treats as white space are U+0009..U+000D, U+0020, U+0085,
    U+00A0, U+1680, U+2000..U+200A, U+2028, U+2029, U+202F, U+205F and
    U+3000. *)

Definition byte (n : nat) : ascii := ascii_of_nat n.
Definition code (a : ascii) : Z := Z.of_nat (nat_of_ascii a).

Definition space1 (a : ascii) : bool :=
  let n := code a in ((9 <=? n) && (n <=? 13)) || (n =? 32).

Definition space2 (a b : ascii) : bool :=
  (code a =? 194) && ((code b =? 133) || (code b =? 160)).

Definition space3 (a b c : ascii) : bool :=
  let x := code a in let y := code b in let z := code c in
  ((x =? 225) && (y =? 154) && (z =? 128)) ||
  ((x =? 226) && (y =? 128) &&
     (((128 <=? z) && (z <=? 138)) || (z =? 168) || (z =? 169) || (z =? 175))) ||
  ((x =? 226) && (y =? 129) && (z =? 159)) ||
  ((x =? 227) && (y =? 128) && (z =? 128)).

(** strings.TrimLeftFunc(s, unicode.IsSpace) *)
Fixpoint TrimLeftSpace (s : string) : string :=
  match s with
  | "" => ""
  | String a s1 =>
      if space1 a then TrimLeftSpace s1
      else match s1 with
           | String b s2 =>
               if space2 a b then TrimLeftSpace s2
               else match s2 with
                    | String c s3 => if space3 a b c then TrimLeftSpace s3 else s
                    | "" => s
                    end
           | "" => s
           end
  end.

(** A string made of white space only. *)
Definition allSpace (s : string) : bool := bool_decide (TrimLeftSpace s = "").

(** strings.TrimRightFunc(s, unicode.IsSpace): drop the longest suffix
    made of white space. *)
Fixpoint TrimRightSpace (s : string) : string :=
  match s with
  | "" => ""
  | String a s' => if allSpace s then "" else String a (TrimRightSpace s')
  end.

(** strings.TrimSpace *)
Definition TrimSpace (s : string) : string := TrimRightSpace (TrimLeftSpace s).

End go_strings.

Module go_filepath.
Import go_strings.

(** filepath.Ext: the suffix starting at the last dot of the last path
    element, empty when that element has no dot. *)
Fixpoint Ext (path : string) : string :=
  match path with
  | "" => ""
  | String c rest =>
      if ContainsByte rest "." || ContainsByte rest "/" then Ext rest
      else if byte_eqb c "." then path else ""
  end.

(** The lexical processing of filepath.Clean on path elements. *)
Fixpoint cleanElems (rooted : bool) (stack : list string) (elems : list string)
  : list string :=
  match elems with
  | [] => reverse stack
  | e :: rest =>
      if bool_decide (e = "") || bool_decide (e = ".") then cleanElems rooted stack rest
      else if bool_decide (e = "..") then
        match stack with
        | top :: below =>
            if bool_decide (top = "..") then cleanElems rooted (e :: stack) rest
            else cleanElems rooted below rest
        | [] => if rooted then cleanElems rooted [] rest
                else cleanElems rooted [e] rest
        end
      else cleanElems rooted (e :: stack) rest
  end.

(** filepath.Clean *)
Definition Clean (path : string) : string :=
  let rooted := HasPrefix path "/" in
  let body := Join (cleanElems rooted [] (Split path "/")) "/" in
  if rooted then "/" +:+ body
  else if bool_decide (body = "") then "." else body.

(** filepath.Join (and path.Join): empty elements are ignored, the rest
    is joined with a slash and cleaned. *)
Definition Join (elems : list string) : string :=
  match filter (λ e, e ≠ "") elems with
  | [] => ""
  | nonempty => Clean (go_strings.Join nonempty "/")
  end.

End go_filepath.

Module go_bufio.
Import go_strings.

(** bufio.MaxScanTokenSize *)
Definition MaxScanTokenSize : Z := 65536.

(** The lines of [s] split at line feeds; [cur] is the line being read,
    reversed. *)
Fixpoint rawLines (cur : string) (s : string) : list string :=
  match s with
  | "" => if bool_decide (cur = "") then [] else [String.rev cur]
  | String c s' =>
      if byte_eqb c "010" then String.rev cur :: rawLines "" s'
      else rawLines (String c cur) s'
  end.

(** bufio.ScanLines drops one trailing carriage return. *)
Definition dropCR (line : string) : string :=
  match String.rev line with
  | String c r => if byte_eqb c "013" then String.rev r else line
  | "" => line
  end.

(** The tokens a Scanner with the ScanLines split function delivers until
    Scan returns false: the scan stops, with an error the caller may
    ignore, at the first line that does not fit the buffer. *)
Fixpoint scanTokens (lines : list string) : list string :=
  match lines with
  | [] => []
  | l :: rest =>
      if Z.of_nat (String.length l) <? MaxScanTokenSize
      then dropCR l :: scanTokens rest
      else []
  end.

Definition ScanLines (content : string) : list string :=
  scanTokens (rawLines "" content).

End go_bufio.

(** ** The file system

    The tree below the root directory the commands are given: every node
    carries its file name (os.DirEntry.Name). A directory keeps its entries
    in the order os.ReadDir lists them (sorted by file name). Paths are
    relative to the root directory. *)

#[warning="-register-all"] Inductive Node : Type :=
  | File (name : string) (content : string)
  | Dir (name : string) (entries : list Node).

Definition NodeName (n : Node) : string :=
  match n with File name _ => name | Dir name _ => name end.

Definition IsDir (n : Node) : bool :=
  match n with Dir _ _ => true | File _ _ => false end.

Fixpoint findEntry (name : string) (entries : list Node) : option Node :=
  match entries with
  | [] => None
  | node :: rest =>
      if bool_decide (NodeName node = name) then Some node else findEntry name rest
  end.

Fixpoint lookupElems (n : Node) (elems : list string) : option Node :=
  match elems with
  | [] => Some n
  | e :: rest =>
      match n with
      | Dir _ entries =>
          match findEntry e entries with
          | Some child => lookupElems child rest
          | None => None
          end
      | File _ _ => None
      end
  end.

(** The elements of a path below the root directory. *)
Definition pathElems (path : string) : list string :=
  go_filepath.cleanElems false [] (go_strings.Split path "/").

(** os.Stat(filepath.Join(rootDir, path)) *)
Definition os_Stat (root : Node) (path : string) : result Node :=
  match lookupElems root (pathElems path) with
  | Some n => Ok n
  | None => Err (ErrNotExist path)
  end.

(** os.ReadDir(filepath.Join(rootDir, path)) *)
Definition os_ReadDir (root : Node) (path : string) : result (list Node) :=
  n ← os_Stat root path;
  match n with
  | Dir _ entries => Ok entries
  | File _ _ => Err (ErrOther "not a directory")
  end.

(** Put [node] into a directory listing, keeping the listing sorted and
    replacing an entry of the same name. *)
Fixpoint putEntry (node : Node) (entries : list Node) : list Node :=
  match entries with
  | [] => [node]
  | old :: rest =>
      if bool_decide (NodeName old = NodeName node) then node :: rest
      else if String.ltb (NodeName node) (NodeName old) then node :: entries
      else old :: putEntry node rest
  end.

(** Replace the node at [elems] by [f] of it ([f] gets the name and [None]
    when the last element is missing); fails when a directory on the way is
    missing. *)
Fixpoint updateElems (n : Node) (elems : list string)
    (f : string → option Node → option Node) : option Node :=
  match elems with
  | [] => f (NodeName n) (Some n)
  | e :: rest =>
      match n with
      | Dir name entries =>
          match rest, findEntry e entries with
          | [], None => (λ new, Dir name (putEntry new entries)) <$> f e None
          | _, Some child =>
              (λ new, Dir name (putEntry new entries)) <$> updateElems child rest f
          | _, None => None
          end
      | File _ _ => None
      end
  end.

(** Create or truncate the file at [path] and write [content]. *)
Definition os_WriteFile (root : Node) (path content : string) : result Node :=
  match updateElems root (pathElems path)
          (λ name old,
             match old with Some (Dir _ _) => None | _ => Some (File name content) end) with
  | Some root' => Ok root'
  | None => Err (ErrOther "write failed")
  end.

(** ** The collaborators outside the repository, and the run time *)

(** ImageConfig contains additional information about the product version. *)
Record ImageConfig : Type := {
  ReleaseAliases : gmap string string;
  ImageConfig_Requirements : option (gmap string string);
}.

Class Env : Type := {
  (** The order in which a [for k, v := range m] loop visits a map: Go
      leaves it unspecified. *)
  range : ∀ {V : Type}, gmap string V → list (string * V);
  range_perm : ∀ (V : Type) (m : gmap string V), range m ≡ₚ map_to_list m;
  (** The lower-case hex SHA-256 digest of a byte string. *)
  sha256_hex : string → string;
  (** shared.ReadYAMLFile on the bytes of image.yaml: [None] when they do
      not parse, otherwise the [simplestreams] subtree, if any. *)
  ReadYAMLFile : string → option (option ImageConfig);
  (** The output of [xdelta3 -e -s source target], [None] when it fails. *)
  xdelta3 : string → string → option string;
  (** time.Now() in RFC 3339. *)
  now : string;
}.

(** shared.FileHash(sha256.New(), paths...): the digest of the files'
    bytes, one after the other. *)
Definition FileHash `{Env} (contents : list string) : string :=
  sha256_hex (foldr String.append "" contents).

(** Go slice indexing [parts[i]], which panics out of range. *)
Definition index (parts : list string) (i : Z) : result string :=
  if (i <? 0) || (Z.of_nat (length parts) <=? i) then Panic "index out of range"
  else match parts !! Z.to_nat i with
       | Some p => Ok p
       | None => Panic "index out of range"
       end.

Definition len {A} (l : list A) : Z := Z.of_nat (length l).

(** Writing [m[k] = v] panics on a nil map. *)
Definition mapAssign {V} (m : option (gmap string V)) (k : string) (v : V)
  : result (gmap string V) :=
  match m with
  | Some entries => Ok (<[k := v]> entries)
  | None => Panic "assignment to entry in nil map"
  end.

(** Reading from a nil map finds nothing. *)
Definition mapEntries {V} (m : option (gmap string V)) : gmap string V :=
  default ∅ m.

(** A left-to-right loop whose body may return early. *)
Fixpoint forEach {A S} (l : list A) (body : S → A → result S) (s : S) : result S :=
  match l with
  | [] => Ok s
  | a :: rest => s' ← body s a; forEach rest body s'
  end.

(** ** Package stream *)

Module stream.
Import go_strings go_filepath go_bufio.

Definition FileChecksumSHA256 := "SHA256SUMS".
Definition FileImageConfig := "image.yaml".

Definition ItemTypeMetadata := "lxd.tar.xz".
Definition ItemTypeSquashfs := "squashfs".
Definition ItemTypeSquashfsDelta := "squashfs.vcdiff".
Definition ItemTypeDiskKVM := "disk-kvm.img".
Definition ItemTypeDiskKVMDelta := "disk-kvm.img.vcdiff".
Definition ItemTypeRootTarXz := "root.tar.xz".

Definition ItemExtMetadata := ".tar.xz".
Definition ItemExtSquashfs := ".squashfs".
Definition ItemExtSquashfsDelta := ".vcdiff".
Definition ItemExtDiskKVM := ".qcow2".
Definition ItemExtDiskKVMDelta := ".qcow2.vcdiff".

Definition allowedItemExtensions : list string :=
  [ItemExtMetadata; ItemExtSquashfs; ItemExtSquashfsDelta; ItemExtDiskKVM;
   ItemExtDiskKVMDelta].

(** Modelled from the spec: shared.HasSuffix (package shared is not among
    the sources), true when the name ends with one of the suffixes. *)
Definition shared_HasSuffix (s : string) (suffixes : list string) : bool :=
  existsb (HasSuffix s) suffixes.

(** lxdShared.ValueInSlice *)
Definition ValueInSlice (v : string) (l : list string) : bool :=
  bool_decide (v ∈ l).

Record Item : Type := {
  Name : string;
  Ftype : string;
  Path : string;
  Size : Z;
  SHA256 : string;
  CombinedSHA256DiskKvmImg : string;
  CombinedSHA256SquashFs : string;
  CombinedSHA256RootXz : string;
  DeltaBase : string;
}.

Definition withFtype (i : Item) (ftype deltaBase : string) : Item :=
  {| Name := Name i; Ftype := ftype; Path := Path i; Size := Size i;
     SHA256 := SHA256 i;
     CombinedSHA256DiskKvmImg := CombinedSHA256DiskKvmImg i;
     CombinedSHA256SquashFs := CombinedSHA256SquashFs i;
     CombinedSHA256RootXz := CombinedSHA256RootXz i;
     DeltaBase := deltaBase |}.

Definition withCombinedDiskKvmImg (i : Item) (h : string) : Item :=
  {| Name := Name i; Ftype := Ftype i; Path := Path i; Size := Size i;
     SHA256 := SHA256 i;
     CombinedSHA256DiskKvmImg := h;
     CombinedSHA256SquashFs := CombinedSHA256SquashFs i;
     CombinedSHA256RootXz := CombinedSHA256RootXz i;
     DeltaBase := DeltaBase i |}.

Definition withCombinedSquashFs (i : Item) (h : string) : Item :=
  {| Name := Name i; Ftype := Ftype i; Path := Path i; Size := Size i;
     SHA256 := SHA256 i;
     CombinedSHA256DiskKvmImg := CombinedSHA256DiskKvmImg i;
     CombinedSHA256SquashFs := h;
     CombinedSHA256RootXz := CombinedSHA256RootXz i;
     DeltaBase := DeltaBase i |}.

Definition withCombinedRootXz (i : Item) (h : string) : Item :=
  {| Name := Name i; Ftype := Ftype i; Path := Path i; Size := Size i;
     SHA256 := SHA256 i;
     CombinedSHA256DiskKvmImg := CombinedSHA256DiskKvmImg i;
     CombinedSHA256SquashFs := CombinedSHA256SquashFs i;
     CombinedSHA256RootXz := h;
     DeltaBase := DeltaBase i |}.

Record Version : Type := {
  Checksums : option (gmap string string);
  Version_ImageConfig : option ImageConfig;
  Items : gmap string Item;
}.

Record Product : Type := {
  Aliases : string;
  Architecture : string;
  Distro : string;
  Release : string;
  ReleaseTitle : string;
  Variant : string;
  Versions : option (gmap string Version);
  Requirements : option (gmap string string);
}.

(** The zero value of Product, which a failed map lookup yields. *)
Definition zeroProduct : Product :=
  {| Aliases := ""; Architecture := ""; Distro := ""; Release := "";
     ReleaseTitle := ""; Variant := ""; Versions := None; Requirements := None |}.

Definition withVersions (p : Product) (vs : option (gmap string Version)) : Product :=
  {| Aliases := Aliases p; Architecture := Architecture p; Distro := Distro p;
     Release := Release p; ReleaseTitle := ReleaseTitle p; Variant := Variant p;
     Versions := vs; Requirements := Requirements p |}.

Definition withRequirements (p : Product) (r : option (gmap string string)) : Product :=
  {| Aliases := Aliases p; Architecture := Architecture p; Distro := Distro p;
     Release := Release p; ReleaseTitle := ReleaseTitle p; Variant := Variant p;
     Versions := Versions p; Requirements := r |}.

Definition withAliases (p : Product) (a : string) : Product :=
  {| Aliases := a; Architecture := Architecture p; Distro := Distro p;
     Release := Release p; ReleaseTitle := ReleaseTitle p; Variant := Variant p;
     Versions := Versions p; Requirements := Requirements p |}.

(** Product.ID *)
Definition ID (p : Product) : string :=
  Distro p +:+ ":" +:+ Release p +:+ ":" +:+ Architecture p +:+ ":" +:+ Variant p.

(** Product.RelPath *)
Definition RelPath (p : Product) : string :=
  Join [Distro p; Release p; Architecture p; Variant p].

Record ProductCatalog : Type := {
  ContentID : string;
  Format : string;
  DataType : string;
  Products : option (gmap string Product);
}.

Definition withProducts (c : ProductCatalog) (ps : option (gmap string Product))
  : ProductCatalog :=
  {| ContentID := ContentID c; Format := Format c; DataType := DataType c;
     Products := ps |}.

(** NewCatalog *)
Definition NewCatalog (products : option (gmap string Product)) : ProductCatalog :=
  {| ContentID := "images"; DataType := "image-downloads"; Format := "products:1.0";
     Products := Some (mapEntries products) |}.

(** GetItem retrieves item metadata for a file. [name] and [content] are
    what os.Stat and reading the file at filepath.Join(rootDir,
    itemRelPath) deliver; filepath.Ext looks at the last path element
    only, which is [name]. *)
Definition GetItem `{Env} (itemRelPath : string) (name content : string)
    (calcHash : bool) : result Item :=
  let item :=
    {| Name := name; Ftype := ""; Path := itemRelPath;
       Size := Z.of_nat (String.length content);
       SHA256 := if calcHash then FileHash [content] else "";
       CombinedSHA256DiskKvmImg := ""; CombinedSHA256SquashFs := "";
       CombinedSHA256RootXz := ""; DeltaBase := "" |} in
  let ext := Ext name in
  if bool_decide (ext = ItemExtSquashfs) then Ok (withFtype item ItemTypeSquashfs "")
  else if bool_decide (ext = ItemExtDiskKVM) then Ok (withFtype item ItemTypeDiskKVM "")
  else if bool_decide (ext = ".vcdiff") then
    let parts := Split name "." in
    if HasSuffix name ItemExtDiskKVMDelta then
      base ← index parts (len parts - 3);
      Ok (withFtype item ItemTypeDiskKVMDelta base)
    else
      base ← index parts (len parts - 2);
      Ok (withFtype item ItemTypeSquashfsDelta base)
  else Ok (withFtype item name "").

(** One line of a checksum file: the pair (filename, checksum) it adds,
    if it splits in two at a space. *)
Definition checksumLine (text : string) : option (string * string) :=
  let line := TrimSpace text in
  match SplitN2 line " " with
  | [checksum; rest] => Some (TrimSpace rest, checksum)
  | _ => None
  end.

(** The body of the scanner loop of ReadChecksumFile. *)
Definition addLine (checksums : gmap string string) (text : string) : gmap string string :=
  match checksumLine text with
  | Some (filename, checksum) => <[filename := checksum]> checksums
  | None => checksums
  end.

(** ReadChecksumFile, on the bytes of the opened file. *)
Definition ReadChecksumFile (content : string) : gmap string string :=
  foldl addLine ∅ (ScanLines content).

Definition contentOf (n : Node) : string :=
  match n with File _ content => content | Dir _ _ => "" end.

(** The bytes of the regular file [name] of a directory listing. *)
Fixpoint findFile (name : string) (files : list Node) : option string :=
  match files with
  | [] => None
  | File n content :: rest =>
      if bool_decide (n = name) then Some content else findFile name rest
  | Dir _ _ :: rest => findFile name rest
  end.

Definition readFile (files : list Node) (name : string) : result string :=
  match findFile name files with
  | Some content => Ok content
  | None => Err (ErrNotExist name)
  end.

(** The first loop of GetVersion, on one directory entry. *)
Definition scanFile `{Env} (versionRelPath : string) (calcHashes : bool)
    (version : Version) (file : Node) : result Version :=
  match file with
  | Dir _ _ => Ok version
  | File name content =>
      if shared_HasSuffix name allowedItemExtensions then
        item ← GetItem (Join [versionRelPath; name]) name content calcHashes;
        Ok {| Checksums := Checksums version;
              Version_ImageConfig := Version_ImageConfig version;
              Items := <[name := item]> (Items version) |}
      else if bool_decide (name = FileChecksumSHA256) then
        Ok {| Checksums := Some (ReadChecksumFile content);
              Version_ImageConfig := Version_ImageConfig version;
              Items := Items version |}
      else if bool_decide (name = FileImageConfig) then
        match ReadYAMLFile content with
        | None => Err ErrVersionInvalidImageConfig
        | Some (Some config) =>
            Ok {| Checksums := Checksums version;
                  Version_ImageConfig := Some config;
                  Items := Items version |}
        | Some None => Ok version
        end
      else Ok version
  end.

(** The second loop of GetVersion, on one item: the metadata item and
    whether the version is known to be complete. *)
Definition combine `{Env} (files : list Node) (calcHashes : bool)
    (st : Item * bool) (entry : string * Item) : result (Item * bool) :=
  let '(metaItem, isVersionComplete) := st in
  let i := entry.2 in
  if negb (ValueInSlice (Ftype i) [ItemTypeSquashfs; ItemTypeDiskKVM; ItemTypeRootTarXz])
  then Ok st
  else
    itemHash ←
      (if calcHashes then
         meta ← readFile files (Name metaItem);
         body ← readFile files (Name i);
         Ok (FileHash [meta; body])
       else Ok "");
    if bool_decide (Ftype i = ItemTypeDiskKVM) then
      Ok (withCombinedDiskKvmImg metaItem itemHash, true)
    else if bool_decide (Ftype i = ItemTypeSquashfs) then
      Ok (withCombinedSquashFs metaItem itemHash, true)
    else if bool_decide (Ftype i = ItemTypeRootTarXz) then
      Ok (withCombinedRootXz metaItem itemHash, isVersionComplete)
    else Ok st.

(** GetVersion *)
Definition GetVersion `{Env} (root : Node) (versionRelPath : string)
    (calcHashes : bool) : result Version :=
  files ← os_ReadDir root versionRelPath;
  version ← forEach files (scanFile versionRelPath calcHashes)
              {| Checksums := None; Version_ImageConfig := None; Items := ∅ |};
  '(version, isVersionComplete) ←
    match Items version !! ItemTypeMetadata with
    | Some metaItem =>
        '(metaItem, complete) ←
          forEach (range (Items version)) (combine files calcHashes) (metaItem, false);
        Ok ({| Checksums := Checksums version;
               Version_ImageConfig := Version_ImageConfig version;
               Items := <[ItemTypeMetadata := metaItem]> (Items version) |}, complete)
    | None => Ok (version, false)
    end;
  if negb isVersionComplete then Err (ErrVersionIncomplete versionRelPath)
  else Ok version.

(** A directory is complete when it holds the metadata file and a
    squashfs or qcow2 root file system. *)
Definition completeDir (files : list Node) : Prop :=
  (∃ content, File ItemTypeMetadata content ∈ files) ∧
  (∃ name content, File name content ∈ files ∧
     (HasSuffix name ItemExtSquashfs = true ∨ HasSuffix name ItemExtDiskKVM = true)).

(** The aliases one comma-delimited release-alias string contributes. *)
Definition releaseAliasesOf (p : Product) (releaseAliases : string) : list string :=
  flat_map (λ releaseAlias,
              let releaseAlias := RemoveByte releaseAlias " " in
              if bool_decide (releaseAlias = "") then []
              else Join [Distro p; releaseAlias; Variant p] ::
                   (if bool_decide (Variant p = "default")
                    then [Join [Distro p; releaseAlias]] else []))
           (Split releaseAliases ",").

(** The loop of GetProduct, on one directory entry: the product and its
    aliases so far. *)
Definition scanVersion `{Env} (root : Node) (productRelPath : string)
    (st : Product * list string) (f : Node) : result (Product * list string) :=
  let '(p, aliases) := st in
  if negb (IsDir f) then Ok st
  else
    let versionRelPath := Join [productRelPath; NodeName f] in
    match GetVersion root versionRelPath false with
    | Panic m => Panic m
    | Err e => if errors_Is e (ErrVersionIncomplete "") then Ok st else Err e
    | Ok version =>
        let '(p, aliases) :=
          match Version_ImageConfig version with
          | Some config =>
              let p := match ImageConfig_Requirements config with
                       | Some r => withRequirements p (Some r)
                       | None => p
                       end in
              (p, aliases ++
                   flat_map (λ entry : string * string,
                               if bool_decide (entry.1 ≠ Release p) then []
                               else releaseAliasesOf p entry.2)
                            (range (ReleaseAliases config)))
          | None => (p, aliases)
          end in
        Ok (withVersions p (Some (<[NodeName f := version]> (mapEntries (Versions p)))),
            aliases)
    end.

(** GetProduct *)
Definition GetProduct `{Env} (root : Node) (productRelPath : string) : result Product :=
  let productPathFormat := "stream/distribution/release/architecture/variant" in
  let productPathLength := len (Split productPathFormat "/") in
  let parts := Split productRelPath "/" in
  if (len parts <? productPathLength) || (productPathLength <? len parts)
  then Err ErrProductInvalidPath
  else
    match os_Stat root productRelPath with
    | Panic m => Panic m
    | Err _ => Err ErrProductInvalidPath
    | Ok info =>
        if negb (IsDir info) then Err ErrProductInvalidPath
        else
          variant ← index parts (len parts - 1);
          architecture ← index parts (len parts - 2);
          release ← index parts (len parts - 3);
          distro ← index parts (len parts - 4);
          let p := {| Aliases := ""; Architecture := architecture; Distro := distro;
                      Release := release; ReleaseTitle := ""; Variant := variant;
                      Versions := None; Requirements := Some ∅ |} in
          let aliases :=
            Join [distro; release; variant] ::
            (if bool_decide (variant = "default") then [Join [distro; release]] else []) in
          files ← os_ReadDir root productRelPath;
          '(p, aliases) ← forEach files (scanVersion root productRelPath) (p, aliases);
          Ok (withAliases p (go_strings.Join aliases ","))
    end.

(** The paths filepath.WalkDir visits below [path], in lexical order,
    the directory before its entries. *)
Fixpoint walk (path : string) (n : Node) : list string :=
  path ::
  match n with
  | File _ _ => []
  | Dir _ entries =>
      (fix walkEntries (es : list Node) : list string :=
         match es with
         | [] => []
         | e :: es' => walk (Join [path; NodeName e]) e ++ walkEntries es'
         end) entries
  end.

(** The callback GetProducts hands to filepath.WalkDir. *)
Definition visit `{Env} (root : Node) (products : gmap string Product)
    (relPath : string) : result (gmap string Product) :=
  match GetProduct root relPath with
  | Panic m => Panic m
  | Err e => if errors_Is e ErrProductInvalidPath then Ok products else Err e
  | Ok product =>
      if bool_decide (size (mapEntries (Versions product)) = 0%nat) then Ok products
      else Ok (<[ID product := product]> products)
  end.

(** GetProducts *)
Definition GetProducts `{Env} (root : Node) (streamRelPath : string)
  : result (gmap string Product) :=
  start ← os_Stat root streamRelPath;
  forEach (walk (Clean streamRelPath) start) (visit root) ∅.

End stream.

(** *** A run-time environment to evaluate the code in

    Maps are visited in the order of their keys' encodings; the digest is
    kept symbolic; the YAML reader knows the documents used below. *)

Definition demoConfig : ImageConfig :=
  {| ReleaseAliases := {[ "focal" := "20.04, fossa" ]};
     ImageConfig_Requirements := Some {[ "secureboot" := "false" ]} |}.

Definition demoConfigYAML : string :=
  "simplestreams: {release_aliases: {focal: '20.04, fossa'}, requirements: {secureboot: 'false'}}".

#[export] Instance demoEnv : Env := {|
  range V m := map_to_list m;
  range_perm V m := reflexivity (map_to_list m);
  sha256_hex s := "sha256(" +:+ s +:+ ")";
  ReadYAMLFile s :=
    if bool_decide (s = "simplestreams: [") then None
    else if bool_decide (s = demoConfigYAML)
         then Some (Some demoConfig)
         else Some None;
  xdelta3 source target := Some ("vcdiff(" +:+ source +:+ "," +:+ target +:+ ")");
  now := "2024-05-05T12:12:00Z";
|}.

(** ** The published metadata

    The files below streams/<version>/, keyed by their path: the JSON
    documents the commands write and read back, and their mode. Every
    operation on them leaves a snapshot, so that the states a reader of the
    directory can observe are the snapshots of the history. *)

(** Modelled from the spec: StreamIndexEntry and StreamIndex (index.go is not
    among the sources): an index maps a stream name to the path, format,
    data type, time of update and product IDs of the stream's catalog. *)
Record StreamIndexEntry : Type := {
  Entry_Path : string;
  Entry_Format : string;
  Entry_Datatype : string;
  Entry_Updated : string;
  Entry_Products : list string;
}.

Record StreamIndex : Type := {
  Index_Format : string;
  Index : gmap string StreamIndexEntry;
}.

Inductive Doc : Type :=
  | CatalogDoc (c : stream.ProductCatalog)
  | IndexDoc (i : StreamIndex)
  | RawDoc (bytes : string).

(** The mode is [None] until the tool sets one. *)
Record MetaFile : Type := { doc : Doc; mode : option Z }.

(** The snapshots of the metadata files, the newest first. *)
Definition History := list (gmap string MetaFile).

Definition current (h : History) : gmap string MetaFile := default ∅ (head h).

Module meta.
Import stream.

(** What encoding/json keeps of a version: Checksums, ImageConfig and the
    items' Name are tagged [json:"-"]. *)
Definition jsonItem (i : Item) : Item :=
  {| Name := ""; Ftype := Ftype i; Path := Path i; Size := Size i; SHA256 := SHA256 i;
     CombinedSHA256DiskKvmImg := CombinedSHA256DiskKvmImg i;
     CombinedSHA256SquashFs := CombinedSHA256SquashFs i;
     CombinedSHA256RootXz := CombinedSHA256RootXz i;
     DeltaBase := DeltaBase i |}.

Definition jsonVersion (v : Version) : Version :=
  {| Checksums := None; Version_ImageConfig := None; Items := jsonItem <$> Items v |}.

(** An empty [versions] map is omitted and read back as nil. *)
Definition jsonProduct (p : Product) : Product :=
  withVersions p
    (match Versions p with
     | Some vs => if bool_decide (vs = ∅) then None else Some (jsonVersion <$> vs)
     | None => None
     end).

Definition jsonCatalog (c : ProductCatalog) : ProductCatalog :=
  withProducts c
    (match Products c with
     | Some ps => Some (jsonProduct <$> ps)
     | None => None
     end).

(** Modelled from the spec: shared.WriteJSONFile (package shared is not
    among the sources) creates or truncates the file and writes the
    value as JSON. *)
Definition WriteJSONFile (h : History) (path : string) (d : Doc) : History :=
  <[path := {| doc := d; mode := None |}]> (current h) :: h.

(** Modelled from the spec: shared.ReadJSONFile into a ProductCatalog;
    [Ok None] stands for the nil catalog returned with an error that
    wraps os.ErrNotExist. A JSON object without a [products] member
    leaves the map nil. *)
Definition ReadJSONFile (h : History) (path : string) : result (option ProductCatalog) :=
  match current h !! path with
  | None => Ok None
  | Some {| doc := CatalogDoc c |} => Ok (Some (jsonCatalog c))
  | Some {| doc := IndexDoc i |} =>
      Ok (Some {| ContentID := ""; Format := Index_Format i; DataType := "";
                  Products := None |})
  | Some {| doc := RawDoc _ |} => Err (ErrOther "invalid JSON")
  end.

(** os.Rename *)
Definition Rename (h : History) (oldPath newPath : string) : History * result () :=
  match current h !! oldPath with
  | Some f => (<[newPath := f]> (delete oldPath (current h)) :: h, Ok ())
  | None => (h, Err (ErrNotExist oldPath))
  end.

(** os.Chmod *)
Definition Chmod (h : History) (path : string) (m : Z) : History * result () :=
  match current h !! path with
  | Some f => (<[path := {| doc := doc f; mode := Some m |}]> (current h) :: h, Ok ())
  | None => (h, Err (ErrNotExist path))
  end.

(** os.Remove, whose error the callers drop. *)
Definition Remove (h : History) (path : string) : History :=
  match current h !! path with
  | Some _ => delete path (current h) :: h
  | None => h
  end.

Definition NewStreamIndex : StreamIndex :=
  {| Index_Format := "index:1.0"; Index := ∅ |}.

(** Modelled from the spec: StreamIndex.AddEntry; the products of the
    entry are the keys of the catalog. *)
Definition AddEntry `{Env} (index : StreamIndex) (streamName path : string)
    (catalog : ProductCatalog) : StreamIndex :=
  {| Index_Format := Index_Format index;
     Index := <[streamName :=
                  {| Entry_Path := path; Entry_Format := Format catalog;
                     Entry_Datatype := DataType catalog; Entry_Updated := now;
                     Entry_Products := (range (mapEntries (Products catalog))).*1 |}]>
                (Index index) |}.

End meta.

(** ** Package main: the build command *)

Module maintainer.
Import go_strings go_filepath stream.

(** [m[id].Versions[name] = v] on a map of products: a missing product
    reads as the zero Product, whose Versions map is nil. The map written
    to is shared with the product stored under [id]. *)
Definition assignVersion (m : gmap string Product) (id name : string) (v : Version)
  : result (gmap string Product) :=
  let p := default zeroProduct (m !! id) in
  vs ← mapAssign (Versions p) name v;
  Ok (<[id := withVersions p (Some vs)]> m).

(** The inner loop of diffProducts, on one version of a product that both
    maps have. *)
Definition versionStep (other : Product) (id : string)
    (missing : gmap string Product) (version : string * Version)
  : result (gmap string Product) :=
  match mapEntries (Versions other) !! version.1 with
  | Some _ => Ok missing
  | None => assignVersion missing id version.1 version.2
  end.

(** The outer loop of diffProducts, on one product. *)
Definition productStep `{Env} (those : gmap string Product)
    (missing : gmap string Product) (entry : string * Product)
  : result (gmap string Product) :=
  match those !! entry.1 with
  | None => Ok (<[entry.1 := entry.2]> missing)
  | Some other =>
      forEach (range (mapEntries (Versions entry.2))) (versionStep other entry.1) missing
  end.

(** One direction of diffProducts: the products of [these] missing from
    [those], and the versions of the common products missing from
    [those]. *)
Definition missingFrom `{Env} (those these : option (gmap string Product))
  : result (gmap string Product) :=
  forEach (range (mapEntries these)) (productStep (mapEntries those)) ∅.

(** The panic of a write to a nil map. *)
Definition nilMapPanic {A} : result A := Panic "assignment to entry in nil map".

(** An entry of one map without a version that its product in [those]
    lacks. *)
Definition settled (those : gmap string Product) (entry : string * Product) : Prop :=
  ∀ q, those !! entry.1 = Some q →
       ∀ name, is_Some (mapEntries (Versions entry.2) !! name) →
               is_Some (mapEntries (Versions q) !! name).

(** diffProducts: the pair (old, new). *)
Definition diffProducts `{Env} (oldProducts newProducts : option (gmap string Product))
  : result (gmap string Product * gmap string Product) :=
  new ← missingFrom oldProducts newProducts;
  old ← missingFrom newProducts oldProducts;
  Ok (old, new).

(** calcVCDiff: run xdelta3 on the two files and write its output. *)
Definition calcVCDiff `{Env} (root : Node) (sourcePath targetPath outputPath : string)
  : Node * result () :=
  match os_Stat root sourcePath, os_Stat root targetPath with
  | Ok (File _ source), Ok (File _ target) =>
      match xdelta3 source target with
      | Some delta =>
          match os_WriteFile root outputPath delta with
          | Ok root' => (root', Ok ())
          | Err e => (root, Err e)
          | Panic m => (root, Panic m)
          end
      | None => (root, Err (ErrOther "xdelta3 failed"))
      end
  | _, _ => (root, Err (ErrOther "xdelta3 failed"))
  end.

(** A loop over [l] that changes the file system and may return early. *)
Fixpoint forEachFS {A} (l : list A) (body : Node → A → Node * result ()) (root : Node)
  : Node * result () :=
  match l with
  | [] => (root, Ok ())
  | a :: rest =>
      match body root a with
      | (root', Ok _) => forEachFS rest body root'
      | failed => failed
      end
  end.

(** The inner loop of createDeltaFiles, on one item of the version. *)
Definition deltaItem `{Env} (productPath preName curName : string) (version : Version)
    (root : Node) (entry : string * Item) : Node * result () :=
  let item := entry.2 in
  if bool_decide (Ftype item ≠ ItemTypeDiskKVM) && bool_decide (Ftype item ≠ ItemTypeSquashfs)
  then (root, Ok ())
  else
    let prefix := (CutSuffix (Name item) (Ext (Name item))).1 in
    let suffix := if bool_decide (Ftype item = ItemTypeDiskKVM)
                  then "qcow2.vcdiff" else "vcdiff" in
    let vcdiff := prefix +:+ "." +:+ preName +:+ "." +:+ suffix in
    match Items version !! vcdiff with
    | Some _ => (root, Ok ())
    | None =>
        let sourcePath := Join [productPath; preName; Name item] in
        let targetPath := Join [productPath; curName; Name item] in
        let outputPath := Join [productPath; curName; vcdiff] in
        match os_Stat root sourcePath with
        | Ok _ => calcVCDiff root sourcePath targetPath outputPath
        | Err e => if errors_Is e (ErrNotExist "") then (root, Ok ()) else (root, Err e)
        | Panic m => (root, Panic m)
        end
    end.

(** The pairs (versions[i-1], versions[i]) for i = 1 .. len-1. *)
Fixpoint adjacent (versions : list string) : list (string * string) :=
  match versions with
  | pre :: ((cur :: _) as rest) => (pre, cur) :: adjacent rest
  | _ => []
  end.

(** createDeltaFiles *)
Definition createDeltaFiles `{Env} (root : Node) (productRelPath versionName : string)
  : Node * result () :=
  match GetProduct root productRelPath with
  | Err e => (root, Err e)
  | Panic m => (root, Panic m)
  | Ok product =>
      let versions :=
        merge_sort String.le (range (mapEntries (Versions product))).*1 in
      if len versions <? 2 then (root, Ok ())
      else
        forEachFS (adjacent versions)
          (λ root pair,
             let preName := pair.1 in
             let curName := pair.2 in
             if bool_decide (versionName ≠ "") && bool_decide (curName ≠ versionName)
             then (root, Ok ())
             else
               match mapEntries (Versions product) !! curName with
               | Some version =>
                   forEachFS (range (Items version))
                     (deltaItem productRelPath preName curName version) root
               | None => (root, Ok ())
               end) root
  end.

(** Modelled from the spec: shared.AppendToFile (package shared is not
    among the sources) opens the file for appending and writes the text. *)
Definition AppendToFile (root : Node) (path text : string) : Node * result () :=
  match updateElems root (pathElems path)
          (λ name old,
             match old with
             | Some (File _ content) => Some (File name (content +:+ text))
             | Some (Dir _ _) => None
             | None => Some (File name text)
             end) with
  | Some root' => (root', Ok ())
  | None => (root, Err (ErrOther "append failed"))
  end.

(** The checksum loop of a job, on one item: [Err] stands for the logged
    failure that makes the job return. *)
Definition verifyItem (checksumFile : string) (checksums : gmap string string)
    (root : Node) (entry : string * Item) : Node * result () :=
  let item := entry.2 in
  let checksum := default "" (checksums !! Name item) in
  let ok := bool_decide (is_Some (checksums !! Name item)) in
  if negb ok && (bool_decide (Ftype item = ItemTypeDiskKVMDelta)
                 || bool_decide (Ftype item = ItemTypeSquashfsDelta))
  then AppendToFile root checksumFile (checksum +:+ "  " +:+ Name item +:+ LF)
  else if bool_decide (checksum ≠ SHA256 item)
       then (root, Err (ErrOther "Checksum mismatch"))
       else (root, Ok ()).

(** The job buildProductCatalog queues for a new version: the file
    system it leaves and the version to insert, [None] when the job
    logged a failure and returned. *)
Definition job `{Env} (root : Node) (productPath versionName : string)
  : Node * result (option Version) :=
  match createDeltaFiles root productPath versionName with
  | (root, Panic m) => (root, Panic m)
  | (root, Err _) => (root, Ok None)
  | (root, Ok _) =>
      let versionPath := Join [productPath; versionName] in
      match GetVersion root versionPath true with
      | Panic m => (root, Panic m)
      | Err _ => (root, Ok None)
      | Ok version =>
          match Checksums version with
          | Some checksums =>
              let checksumFile := Join [versionPath; FileChecksumSHA256] in
              match forEachFS (range (Items version))
                      (verifyItem checksumFile checksums) root with
              | (root, Panic m) => (root, Panic m)
              | (root, Err _) => (root, Ok None)
              | (root, Ok _) => (root, Ok (Some version))
              end
          | None => (root, Ok (Some version))
          end
      end
  end.

(** buildProductCatalog, on the file system and the published metadata:
    the file system the jobs leave and the catalog. The jobs run one
    after the other in the order they are queued; they change the catalog
    under the mutex only and each inserts one version of its own. *)
Definition buildProductCatalog `{Env} (root : Node) (h : History)
    (streamVersion streamName : string) (workers : Z)
  : result (Node * ProductCatalog) :=
  let catalogPath := Join ["streams"; streamVersion; streamName +:+ ".json"] in
  loaded ← meta.ReadJSONFile h catalogPath;
  let catalog := match loaded with
                 | Some catalog => catalog
                 | None => NewCatalog None
                 end in
  products ← GetProducts root streamName;
  diff ← diffProducts (Products catalog) (Some products);
  let newProducts := diff.2 in
  forEach (range newProducts)
    (λ (st : Node * ProductCatalog) (entry : string * Product),
       let '(root, catalog) := st in
       let id := entry.1 in
       let p := entry.2 in
       if bool_decide (size (mapEntries (Versions p)) = 0%nat) then Ok st
       else
         let productPath := Join [streamName; RelPath p] in
         catalog ←
           match mapEntries (Products catalog) !! id with
           | Some _ => Ok catalog
           | None =>
               let product :=
                 withVersions (default zeroProduct (products !! id)) (Some ∅) in
               ps ← mapAssign (Products catalog) id product;
               Ok (withProducts catalog (Some ps))
           end;
         forEach (range (mapEntries (Versions p)))
           (λ (st : Node * ProductCatalog) (version : string * Version),
              let '(root, catalog) := st in
              let versionName := version.1 in
              match job root productPath versionName with
              | (_, Panic m) => Panic m
              | (_, Err e) => Err e
              | (root, Ok None) => Ok (root, catalog)
              | (root, Ok (Some version)) =>
                  ps ← assignVersion (mapEntries (Products catalog)) id versionName version;
                  Ok (root, withProducts catalog (Some ps))
              end) (root, catalog))
    (root, catalog).

(** The catalog refers to a version of a product. *)
Definition refers (products : gmap string Product) (id versionName : string) : Prop :=
  ∃ p, products !! id = Some p ∧ is_Some (mapEntries (Versions p) !! versionName).

Definition references (catalog : ProductCatalog) (id versionName : string) : Prop :=
  refers (mapEntries (Products catalog)) id versionName.

(** Every version of every product of the first map is in the second. *)
Definition keeps (products products' : gmap string Product) : Prop :=
  ∀ id versionName, refers products id versionName → refers products' id versionName.

(** The same, between two states of a build: the tree and the catalog. *)
Definition keepsCatalog (st st' : Node * ProductCatalog) : Prop :=
  keeps (mapEntries (Products st.2)) (mapEntries (Products st'.2)).

(** Between two states of a build, the catalog has gained versions of
    the products of [source] only. *)
Definition addsFrom (source : gmap string Product) (st st' : Node * ProductCatalog) : Prop :=
  ∀ id versionName,
    references st'.2 id versionName →
    references st.2 id versionName ∨ refers source id versionName.

(** A product of [these] that [those] has too has a version that [those]
    lacks. *)
Definition newVersionIn (those these : gmap string Product) : Prop :=
  ∃ id p q name,
    these !! id = Some p ∧ those !! id = Some q ∧
    is_Some (mapEntries (Versions p) !! name) ∧
    mapEntries (Versions q) !! name = None.

(** replace struct holds old and new path for a file replace. *)
Record replace : Type := { OldPath : string; NewPath : string }.

(** The last loop of buildIndex: move the temporary files to their final
    destinations and set read permissions. *)
Fixpoint applyReplaces (replaces : list replace) (h : History) : History * result () :=
  match replaces with
  | [] => (h, Ok ())
  | r :: rest =>
      match meta.Rename h (OldPath r) (NewPath r) with
      | (h, Ok _) =>
          match meta.Chmod h (NewPath r) 420 with
          | (h, Ok _) => applyReplaces rest h
          | failed => failed
          end
      | failed => failed
      end
  end.

(** What the first loop of buildIndex carries along. *)
Record staging : Type := {
  stagedRoot : Node;
  stagedHistory : History;
  replaces : list replace;
  index : StreamIndex;
  deferred : list string;
}.

(** The first loop of buildIndex, on one stream. *)
Definition stageCatalog `{Env} (streamVersion : string) (workers : Z)
    (st : staging) (streamName : string) : staging * result () :=
  match buildProductCatalog (stagedRoot st) (stagedHistory st)
          streamVersion streamName workers with
  | Panic m => (st, Panic m)
  | Err e => (st, Err e)
  | Ok (root, catalog) =>
      let metaDir := Join ["streams"; streamVersion] in
      let catalogPath := Join [metaDir; streamName +:+ ".json"] in
      let catalogPathTemp := Join [metaDir; "." +:+ streamName +:+ ".json.tmp"] in
      let h := meta.WriteJSONFile (stagedHistory st) catalogPathTemp (CatalogDoc catalog) in
      ({| stagedRoot := root;
          stagedHistory := h;
          replaces := replaces st ++ [{| OldPath := catalogPathTemp; NewPath := catalogPath |}];
          index := meta.AddEntry (index st) streamName catalogPath catalog;
          deferred := catalogPathTemp :: deferred st |}, Ok ())
  end.

Fixpoint stageCatalogs `{Env} (streamVersion : string) (workers : Z)
    (streamNames : list string) (st : staging) : staging * result () :=
  match streamNames with
  | [] => (st, Ok ())
  | streamName :: rest =>
      match stageCatalog streamVersion workers st streamName with
      | (st, Ok _) => stageCatalogs streamVersion workers rest st
      | failed => failed
      end
  end.

(** The deferred os.Remove calls, the last deferred first. *)
Definition runDeferred (paths : list string) (h : History) : History :=
  foldl meta.Remove h paths.

(** buildIndex: the file system and the history of the metadata files it
    leaves, and its result. *)
Definition buildIndex `{Env} (root : Node) (h : History) (streamVersion : string)
    (streamNames : list string) (workers : Z) : Node * History * result () :=
  let metaDir := Join ["streams"; streamVersion] in
  let start := {| stagedRoot := root; stagedHistory := h; replaces := [];
                  index := meta.NewStreamIndex; deferred := [] |} in
  match stageCatalogs streamVersion workers streamNames start with
  | (st, Ok _) =>
      let indexPath := Join [metaDir; "index.json"] in
      let indexPathTemp := Join [metaDir; ".index.json.tmp"] in
      let h := meta.WriteJSONFile (stagedHistory st) indexPathTemp (IndexDoc (index st)) in
      let deferred := indexPathTemp :: deferred st in
      let replaces := replaces st ++ [{| OldPath := indexPathTemp; NewPath := indexPath |}] in
      let '(h, r) := applyReplaces replaces h in
      (stagedRoot st, runDeferred deferred h, r)
  | (st, failed) =>
      (stagedRoot st, runDeferred (deferred st) (stagedHistory st), failed)
  end.

(** The temporary files of buildIndex are named [.<name>.json.tmp]. *)
Definition isTemp (path : string) : bool := HasSuffix path ".tmp".

(** The replace buildIndex queues for a stream. *)
Definition catalogReplace (streamVersion streamName : string) : replace :=
  {| OldPath := Join [Join ["streams"; streamVersion]; "." +:+ streamName +:+ ".json.tmp"];
     NewPath := Join [Join ["streams"; streamVersion]; streamName +:+ ".json"] |}.

(** *** The prune command *)

(** The referenced versions to keep and to remove: all but the last
    [keep] of the alphabetically sorted version names go. *)
Definition splitRetained (keep : Z) (versions : list string) : list string * list string :=
  let sorted := merge_sort String.le versions in
  let excess := Z.to_nat (len sorted - keep) in
  (drop excess sorted, take excess sorted).

(** Quota retention on one product: what is left of the versions the
    catalog references and of the entries of the product directory. *)
Definition pruneProduct `{Env} (keep : Z) (referenced : gmap string Version)
    (entries : list Node) : gmap string Version * list Node :=
  let removed := (splitRetained keep (range referenced).*1).2 in
  (filter (λ kv, kv.1 ∉ removed) referenced,
   filter (λ node, NodeName node ∉ removed) entries).

(** Replace the entries of the directory at [elems], if there is one. *)
Fixpoint mapDir (n : Node) (elems : list string) (f : list Node → list Node) : Node :=
  match n, elems with
  | Dir name entries, [] => Dir name (f entries)
  | Dir name entries, e :: rest =>
      Dir name ((λ child, if bool_decide (NodeName child = e)
                          then mapDir child rest f else child) <$> entries)
  | File _ _, _ => n
  end.

(** Modelled from the spec: pruneStreamProductVersions (cmd_prune.go is
    not among the sources). [keep] must be at least 1; the published
    catalog is loaded (absent: nothing to do); for each of its products
    the versions are sorted alphabetically and all but the newest [keep]
    are removed, from the disk and from the catalog; the catalog and the
    index are then rewritten through the publisher. The versions
    enumerated are those the catalog references, as the prune how-to
    (retention policy: "product versions are retrieved from existing
    product catalog") and TestPruneOldVersions ("Ensure only referenced
    versions are prunned") have it: version directories the catalog does
    not reference are left to the dangling sweep. *)
Definition pruneStreamProductVersions `{Env} (root : Node) (h : History)
    (streamVersion streamName : string) (keep : Z) : Node * History * result () :=
  if keep <? 1 then (root, h, Err (ErrOther "At least 1 product version must be retained"))
  else
    let metaDir := Join ["streams"; streamVersion] in
    let catalogPath := Join [metaDir; streamName +:+ ".json"] in
    match meta.ReadJSONFile h catalogPath with
    | Panic m => (root, h, Panic m)
    | Err e => (root, h, Err e)
    | Ok None => (root, h, Ok ())
    | Ok (Some catalog) =>
        let '(root, products) :=
          foldl (λ (st : Node * gmap string Product) (entry : string * Product),
                   let p := entry.2 in
                   let productPath := Join [streamName; RelPath p] in
                   (mapDir st.1 (pathElems productPath)
                      (λ entries, (pruneProduct keep (mapEntries (Versions p)) entries).2),
                    <[entry.1 :=
                        withVersions p
                          (Some (pruneProduct keep (mapEntries (Versions p)) []).1)]> st.2))
                (root, mapEntries (Products catalog))
                (range (mapEntries (Products catalog))) in
        let catalog := withProducts catalog (Some products) in
        let catalogPathTemp := Join [metaDir; "." +:+ streamName +:+ ".json.tmp"] in
        let indexPath := Join [metaDir; "index.json"] in
        let indexPathTemp := Join [metaDir; ".index.json.tmp"] in
        let h := meta.WriteJSONFile h catalogPathTemp (CatalogDoc catalog) in
        let index := meta.AddEntry meta.NewStreamIndex streamName catalogPath catalog in
        let h := meta.WriteJSONFile h indexPathTemp (IndexDoc index) in
        let '(h, r) :=
          applyReplaces [{| OldPath := catalogPathTemp; NewPath := catalogPath |};
                         {| OldPath := indexPathTemp; NewPath := indexPath |}] h in
        (root, runDeferred [indexPathTemp; catalogPathTemp] h, r)
    end.

(** *** The files a build leaves alone *)

(** The name of a delta file. *)
Definition isDelta (name : string) : bool := HasSuffix name ".vcdiff".

(** The names of the files a build writes: delta files and checksum
    files. *)
Definition buildWrites (name : string) : bool :=
  HasSuffix name ".vcdiff" || HasSuffix name FileChecksumSHA256.

(** Every regular file of [root] whose name is not [written] is in
    [root'], at the same place and with the same bytes. *)
Definition keepsFiles (written : string → bool) (root root' : Node) : Prop :=
  ∀ elems name content,
    lookupElems root elems = Some (File name content) →
    written name = false →
    lookupElems root' elems = Some (File name content).

(** The same, between two states of a build. *)
Definition keepsFilesOf (written : string → bool) (st st' : Node * ProductCatalog) : Prop :=
  keepsFiles written st.1 st'.1.

(** An update of a file system that creates or rewrites a regular file
    under the name it is given and refuses a directory. *)
Definition fileUpdate (f : string → option Node → option Node) : Prop :=
  ∀ name old new,
    f name old = Some new →
    (∃ content, new = File name content) ∧ ∀ d entries, old ≠ Some (Dir d entries).

(** *** Checksum files as the build writes them *)

(** The line a job appends to the checksum file for a file:
    fmt.Sprintf("%s  %s\n", checksum, name). *)
Definition checksumEntry (checksum name : string) : string :=
  checksum +:+ "  " +:+ name +:+ LF.

(** A checksum file with one such line for each pair (name, checksum). *)
Definition checksumFileOf (entries : list (string * string)) : string :=
  foldr (λ entry rest, checksumEntry entry.2 entry.1 +:+ rest) "" entries.

(** A visible ASCII character: neither a control character nor a space. *)
Definition graphic (a : ascii) : bool := (33 <=? code a) && (code a <=? 126).

Fixpoint allGraphic (s : string) : bool :=
  match s with
  | "" => true
  | String a s' => graphic a && allGraphic s'
  end.

(** Some character of the string is visible. *)
Fixpoint hasGraphic (s : string) : bool :=
  match s with
  | "" => false
  | String a s' => graphic a || hasGraphic s'
  end.

(** A non-empty string of visible ASCII characters. *)
Definition word (s : string) : bool := negb (bool_decide (s = "")) && allGraphic s.

(** A pair (name, checksum) of two words whose line fits the buffer of
    the scanner. *)
Definition plainEntry (entry : string * string) : Prop :=
  word entry.1 = true ∧ word entry.2 = true ∧
  Z.of_nat (String.length (entry.2 +:+ "  " +:+ entry.1)) < go_bufio.MaxScanTokenSize.

End maintainer.

(** *** Directories to evaluate the code on *)

Module demo.

(** A complete version with a configuration and a root tarball. *)
Definition completeFiles : list Node :=
  [File "image.yaml" demoConfigYAML; File "lxd.tar.xz" "meta"; File "root.tar.xz" "tar";
   File "rootfs.squashfs" "fs"].

(** The same files with an image.yaml that is not YAML. *)
Definition brokenConfigFiles : list Node :=
  [File "image.yaml" "simplestreams: ["; File "lxd.tar.xz" "meta";
   File "rootfs.squashfs" "fs"].

(** Metadata and a root tarball only. *)
Definition tarballOnlyFiles : list Node :=
  [File "lxd.tar.xz" "meta"; File "root.tar.xz" "tar"].

Definition versions : Node :=
  Dir "" [Dir "broken" brokenConfigFiles; Dir "complete" completeFiles;
          Dir "tarball" tarballOnlyFiles].

Definition files (names : list string) : list Node :=
  (λ name, File name "test-content") <$> names.

(** A stream with one product and one complete version on disk. *)
Definition oneVersion : Node :=
  Dir "" [Dir "images" [Dir "ubuntu" [Dir "noble" [Dir "amd64" [Dir "cloud" [
    Dir "2024_01_01" (files ["disk.qcow2"; "lxd.tar.xz"])]]]]]].

(** A published catalog with a product that is not on that disk. *)
Definition debianCatalog : stream.ProductCatalog :=
  stream.NewCatalog (Some {[
    "debian:bookworm:amd64:cloud" :=
      {| stream.Aliases := "debian/bookworm/cloud"; stream.Architecture := "amd64";
         stream.Distro := "debian"; stream.Release := "bookworm";
         stream.ReleaseTitle := ""; stream.Variant := "cloud";
         stream.Versions :=
           Some {[ "2023_12_31" :=
                     {| stream.Checksums := None; stream.Version_ImageConfig := None;
                        stream.Items := ∅ |} ]};
         stream.Requirements := Some ∅ |} ]}).

Definition debianPublished : History :=
  [ {[ "streams/v1/images.json" := {| doc := CatalogDoc debianCatalog; mode := Some 420 |} ]} ].

(** A product with the given versions. *)
Definition product (versions : list string) : stream.Product :=
  {| stream.Aliases := "ubuntu/noble/cloud"; stream.Architecture := "amd64";
     stream.Distro := "ubuntu"; stream.Release := "noble";
     stream.ReleaseTitle := ""; stream.Variant := "cloud";
     stream.Versions :=
       Some (list_to_map
               ((λ name, (name, {| stream.Checksums := None;
                                   stream.Version_ImageConfig := None;
                                   stream.Items := ∅ |})) <$> versions));
     stream.Requirements := Some ∅ |}.

(** The published products and the products on disk, where the one
    product has got a second version. *)
Definition oldProducts : option (gmap string stream.Product) :=
  Some {[ "ubuntu:noble:amd64:cloud" := product ["2024_01_01"] ]}.

Definition newProducts : option (gmap string stream.Product) :=
  Some {[ "ubuntu:noble:amd64:cloud" := product ["2024_01_01"; "2024_01_02"] ]}.

(** The disk of [oneVersion] with a second complete version. *)
Definition twoVersions : Node :=
  Dir "" [Dir "images" [Dir "ubuntu" [Dir "noble" [Dir "amd64" [Dir "cloud" [
    Dir "2024_01_01" (files ["disk.qcow2"; "lxd.tar.xz"]);
    Dir "2024_01_02" (files ["disk.qcow2"; "lxd.tar.xz"])]]]]]].

(** The first build of the stream with one version. *)
Definition firstBuild : Node * History * result () :=
  maintainer.buildIndex demo.oneVersion [] "v1" ["images"] 2.

Definition productPath : string := "images/ubuntu/noble/amd64/cloud".

(** The checksum file of an uploaded version: the digests of the two
    files of the upload. *)
Definition uploadedSums : string :=
  "sha256(test-content)  disk.qcow2" +:+ LF +:+ "sha256(test-content)  lxd.tar.xz" +:+ LF.

(** A second version that was uploaded with its checksum file. *)
Definition checksummed : Node :=
  Dir "" [Dir "images" [Dir "ubuntu" [Dir "noble" [Dir "amd64" [Dir "cloud" [
    Dir "2024_01_01" (files ["disk.qcow2"; "lxd.tar.xz"]);
    Dir "2024_01_02" (File "SHA256SUMS" uploadedSums :: files ["disk.qcow2"; "lxd.tar.xz"])]]]]]].

(** The job of the build for that version. *)
Definition checksummedJob : Node * result (option stream.Version) :=
  maintainer.job checksummed productPath "2024_01_02".

(** The item a job returned under a name, and the bytes of a file. *)
Definition jobItem (r : Node * result (option stream.Version)) (name : string)
  : option stream.Item :=
  match r.2 with
  | Ok (Some version) => stream.Items version !! name
  | _ => None
  end.

Definition bytesAt (root : Node) (path : string) : option string :=
  match os_Stat root path with
  | Ok (File _ content) => Some content
  | _ => None
  end.

(** A product directory with a hidden version that is complete. *)
Definition hiddenVersion : Node :=
  Dir "" [Dir "images" [Dir "ubuntu" [Dir "noble" [Dir "amd64" [Dir "cloud" [
    Dir ".2024_01_02" (files ["disk.qcow2"; "lxd.tar.xz"]);
    Dir "2024_01_01" (files ["disk.qcow2"; "lxd.tar.xz"])]]]]]].

(** The version names of a product, sorted. *)
Definition versionNames (p : result stream.Product) : list string :=
  match p with
  | Ok p => merge_sort String.le (map_to_list (mapEntries (stream.Versions p))).*1
  | _ => []
  end.

(** The versions a catalog has for a product, sorted. *)
Definition catalogVersions (r : result (Node * stream.ProductCatalog)) (id : string)
  : list string :=
  match r with
  | Ok (_, catalog) =>
      match mapEntries (stream.Products catalog) !! id with
      | Some p => versionNames (Ok p)
      | None => []
      end
  | _ => []
  end.

(** The delta item the job finds in the checksummed version. *)
Definition deltaItem : stream.Item :=
  {| stream.Name := "disk.2024_01_01.qcow2.vcdiff";
     stream.Ftype := stream.ItemTypeDiskKVMDelta;
     stream.Path := productPath +:+ "/2024_01_02/disk.2024_01_01.qcow2.vcdiff";
     stream.Size := 33;
     stream.SHA256 := "sha256(vcdiff(test-content,test-content))";
     stream.CombinedSHA256DiskKvmImg := "";
     stream.CombinedSHA256SquashFs := "";
     stream.CombinedSHA256RootXz := "";
     stream.DeltaBase := "2024_01_01" |}.

Definition checksumFile : string := productPath +:+ "/2024_01_02/SHA256SUMS".

(** Two empty streams, one of them named like the index. *)
Definition indexStream : Node := Dir "" [Dir "images" []; Dir "index" []].

Definition indexStreamBuild : Node * History * result () :=
  maintainer.buildIndex indexStream [] "v1" ["index"; "images"] 2.

(** The file at [indexPath] of a snapshot is an index with an entry whose
    catalog file is not in the snapshot. *)
Definition danglingIndex (indexPath : string) (snapshot : gmap string MetaFile) : bool :=
  match snapshot !! indexPath with
  | Some {| doc := IndexDoc index |} =>
      existsb (λ entry : string * StreamIndexEntry,
                 negb (bool_decide (is_Some (snapshot !! Entry_Path entry.2))))
              (map_to_list (Index index))
  | _ => false
  end.

(** Four versions that a catalog is published for, and two more that
    arrive after the publication. *)
Definition version (name : string) : Node := Dir name (files ["disk.qcow2"; "lxd.tar.xz"]).

Definition published : Node :=
  Dir "" [Dir "images" [Dir "ubuntu" [Dir "noble" [Dir "amd64" [Dir "cloud" [
    version "2023"; version "2024"; version "2025"; version "2026"]]]]]].

Definition publishedBuild : Node * History * result () :=
  maintainer.buildIndex published [] "v1" ["images"] 2.

Definition arrived : Node :=
  maintainer.mapDir publishedBuild.1.1 (pathElems productPath)
    (λ entries, entries ++ [version "2027"; version "2028"]).


(** The versions the catalog references and the directories on disk in
    that scenario. *)
Definition fourVersions : gmap string stream.Version :=
  mapEntries (stream.Versions (product ["2023"; "2024"; "2025"; "2026"])).

Definition sixEntries : list Node :=
  version <$> ["2023"; "2024"; "2025"; "2026"; "2027"; "2028"].

(** A product with a complete version and a version whose image.yaml
    is not YAML. *)
Definition brokenProduct : Node :=
  Dir "" [Dir "images" [Dir "ubuntu" [Dir "noble" [Dir "amd64" [Dir "cloud" [
    Dir "2024_01_01" completeFiles; Dir "2024_01_02" brokenConfigFiles]]]]]].

(** The value of a result, or a default. *)
Definition valueOr {A} (r : result A) (d : A) : A :=
  match r with Ok a => a | _ => d end.

End demo.

(** * Properties *)

(** ** Facts about the library functions *)

Module go_strings_facts.
Import go_strings.

Lemma app_cons a s t : String a s +:+ t = String a (s +:+ t).
Proof. reflexivity. Qed.

Lemma app_nil_l t : "" +:+ t = t.
Proof. reflexivity. Qed.


Lemma app_nil_r s : s +:+ "" = s.
Proof. induction s as [|a s IH]; [done|]. by rewrite app_cons, IH. Qed.

Lemma byte_eqb_true a b : byte_eqb a b = true ↔ a = b.
Proof. unfold byte_eqb. by rewrite bool_decide_eq_true. Qed.

Lemma byte_eqb_false a b : byte_eqb a b = false ↔ a ≠ b.
Proof. unfold byte_eqb. by rewrite bool_decide_eq_false. Qed.

Lemma HasSuffix_spec s suffix :
  HasSuffix s suffix = true ↔ ∃ p, s = p +:+ suffix.
Proof.
  induction s as [|a s IH]; simpl.
  - rewrite orb_false_r, bool_decide_eq_true. split.
    + intros <-. by exists "".
    + intros [[|b p] Hp]; [done|discriminate].
  - rewrite orb_true_iff, bool_decide_eq_true, IH. split.
    + intros [<-|[p ->]]; [by exists ""|by exists (String a p)].
    + intros [[|b p] Hp]; [by left|].
      rewrite app_cons in Hp. injection Hp as -> ->. right. by exists p.
Qed.

Lemma Split_nonempty s sep : Split s sep ≠ [].
Proof.
  destruct s as [|a s]; simpl; [done|].
  destruct (byte_eqb a sep); [done|]. by destruct (Split s sep).
Qed.

Lemma Split_cons_ne a s sep :
  a ≠ sep →
  ∃ p ps, Split s sep = p :: ps ∧ Split (String a s) sep = String a p :: ps.
Proof.
  intros Hne. simpl. apply byte_eqb_false in Hne as ->.
  destruct (Split s sep) as [|p ps] eqn:E; [by apply Split_nonempty in E|eauto].
Qed.

(** Splitting at a separator splits the pieces. *)
Lemma Split_app_sep s t sep :
  Split (s +:+ String sep t) sep = Split s sep ++ Split t sep.
Proof.
  induction s as [|a s IH].
  - rewrite app_nil_l. simpl. by rewrite (proj2 (byte_eqb_true sep sep) eq_refl).
  - rewrite app_cons. simpl. destruct (byte_eqb a sep); [by rewrite IH|].
    rewrite IH. destruct (Split s sep) as [|p ps] eqn:E; [by apply Split_nonempty in E|done].
Qed.


Lemma ContainsByte_app s t b :
  ContainsByte (s +:+ t) b = ContainsByte s b || ContainsByte t b.
Proof.
  induction s as [|a s IH]; [done|]. rewrite app_cons. simpl.
  by rewrite IH, orb_assoc.
Qed.

End go_strings_facts.

Module go_filepath_facts.
Import go_strings go_filepath go_strings_facts.

(** The extension is a suffix of the path. *)
Lemma Ext_suffix path : ∃ p, path = p +:+ Ext path.
Proof.
  induction path as [|a s [p Hp]]; [by exists ""|]. simpl.
  destruct (ContainsByte s "." || ContainsByte s "/").
  - exists (String a p). by rewrite app_cons, <-Hp.
  - destruct (byte_eqb a "."); [by exists ""|].
    exists (String a s). by rewrite app_nil_r.
Qed.

(** A suffix that starts with a dot and has no other dot or slash is the
    extension. *)
Lemma Ext_app p t :
  ContainsByte t "." = false → ContainsByte t "/" = false →
  Ext (p +:+ String "." t) = String "." t.
Proof.
  intros Hdot Hslash. induction p as [|a p IH].
  - rewrite app_nil_l. simpl. by rewrite Hdot, Hslash.
  - rewrite app_cons. simpl. rewrite ContainsByte_app. simpl.
    by rewrite orb_true_r.
Qed.

End go_filepath_facts.

Lemma index_in_range (parts : list string) (i : Z) :
  0 ≤ i < len parts → ∃ p, index parts i = Ok p ∧ parts !! Z.to_nat i = Some p.
Proof.
  intros Hi. unfold index, len in *.
  destruct (i <? 0) eqn:E1; [lia|]. destruct (Z.of_nat (length parts) <=? i) eqn:E2; [lia|].
  simpl. destruct (parts !! Z.to_nat i) as [p|] eqn:E; [eauto|].
  apply lookup_ge_None in E. lia.
Qed.

Module stream_facts.
Import go_strings go_filepath go_strings_facts go_filepath_facts stream.

Lemma Split_vcdiff name :
  HasSuffix name ItemExtSquashfsDelta = true →
  ∃ p, name = p +:+ ItemExtSquashfsDelta ∧ Split name "." = Split p "." ++ ["vcdiff"].
Proof.
  intros [p ->]%HasSuffix_spec. exists p. split; [done|].
  apply (Split_app_sep p "vcdiff" ".").
Qed.

Lemma Split_qcow2_vcdiff name :
  HasSuffix name ItemExtDiskKVMDelta = true →
  ∃ p, name = p +:+ ItemExtDiskKVMDelta ∧ Split name "." = Split p "." ++ ["qcow2"; "vcdiff"].
Proof.
  intros [p ->]%HasSuffix_spec. exists p. split; [done|].
  apply (Split_app_sep p "qcow2.vcdiff" ".").
Qed.

Lemma len_app {A} (l k : list A) : len (l ++ k) = len l + len k.
Proof. unfold len. rewrite length_app. lia. Qed.

Lemma len_Split_pos s sep : 1 ≤ len (Split s sep).
Proof.
  pose proof (Split_nonempty s sep). unfold len.
  destruct (Split s sep); [done|simpl; lia].
Qed.

Lemma len_Split_vcdiff name :
  HasSuffix name ItemExtSquashfsDelta = true → 2 ≤ len (Split name ".").
Proof.
  intros (p & _ & ->)%Split_vcdiff. rewrite len_app.
  pose proof (len_Split_pos p "."). unfold len at 2. simpl. lia.
Qed.

Lemma len_Split_qcow2_vcdiff name :
  HasSuffix name ItemExtDiskKVMDelta = true → 3 ≤ len (Split name ".").
Proof.
  intros (p & _ & ->)%Split_qcow2_vcdiff. rewrite len_app.
  pose proof (len_Split_pos p "."). unfold len at 2. simpl. lia.
Qed.

(** GetItem returns an item for every file, whatever its name. *)
Lemma GetItem_Ok `{Env} itemRelPath name content calcHash :
  is_Ok (GetItem itemRelPath name content calcHash).
Proof.
  unfold GetItem, is_Ok.
  destruct (decide (Ext name = ItemExtSquashfs)); [rewrite bool_decide_true by done; eauto|].
  rewrite bool_decide_false by done.
  destruct (decide (Ext name = ItemExtDiskKVM)); [rewrite bool_decide_true by done; eauto|].
  rewrite bool_decide_false by done.
  destruct (decide (Ext name = ".vcdiff")) as [Hext|];
    [rewrite bool_decide_true by done|rewrite bool_decide_false by done; eauto].
  assert (HasSuffix name ItemExtSquashfsDelta = true) as Hv.
  { apply HasSuffix_spec. destruct (Ext_suffix name) as [p Hp]. exists p.
    by rewrite Hext in Hp. }
  destruct (HasSuffix name ItemExtDiskKVMDelta) eqn:Hq.
  - apply len_Split_qcow2_vcdiff in Hq.
    destruct (index_in_range (Split name ".") (len (Split name ".") - 3)) as (b & -> & _);
      [pose proof (len_Split_pos name "."); lia|]. simpl. eauto.
  - apply len_Split_vcdiff in Hv.
    destruct (index_in_range (Split name ".") (len (Split name ".") - 2)) as (b & -> & _);
      [lia|]. simpl. eauto.
Qed.

(** C10: the delta classification in GetItem is total. A name that ends
    in ".vcdiff" splits on '.' into at least two pieces, and one that ends
    in ".qcow2.vcdiff" into at least three, so that the accesses
    parts[len(parts)-2] and parts[len(parts)-3] are in range; GetItem
    returns an item, and does not panic, for every file with an allowed
    item extension. *)
Theorem GetItem_delta_total `{Env} (itemRelPath name content : string) (calcHash : bool) :
  (HasSuffix name ItemExtSquashfsDelta = true →
     2 ≤ len (Split name ".") ∧
     is_Ok (index (Split name ".") (len (Split name ".") - 2))) ∧
  (HasSuffix name ItemExtDiskKVMDelta = true →
     3 ≤ len (Split name ".") ∧
     is_Ok (index (Split name ".") (len (Split name ".") - 3))) ∧
  (shared_HasSuffix name allowedItemExtensions = true →
     is_Ok (GetItem itemRelPath name content calcHash)).
Proof.
  split; [|split].
  - intros Hv%len_Split_vcdiff. split; [done|].
    destruct (index_in_range (Split name ".") (len (Split name ".") - 2)) as (b & ? & _);
      [lia|by exists b].
  - intros Hq%len_Split_qcow2_vcdiff. split; [done|].
    destruct (index_in_range (Split name ".") (len (Split name ".") - 3)) as (b & ? & _);
      [lia|by exists b].
  - intros _. apply GetItem_Ok.
Qed.

Lemma GetItem_delta_total_witness :
  (2 ≤ len (Split "rootfs.2024_01_01.vcdiff" ".") ∧
   is_Ok (index (Split "rootfs.2024_01_01.vcdiff" ".")
            (len (Split "rootfs.2024_01_01.vcdiff" ".") - 2))) ∧
  (3 ≤ len (Split "disk.2024_01_01.qcow2.vcdiff" ".") ∧
   is_Ok (index (Split "disk.2024_01_01.qcow2.vcdiff" ".")
            (len (Split "disk.2024_01_01.qcow2.vcdiff" ".") - 3))) ∧
  is_Ok (GetItem (H := demoEnv) "v/disk.2024_01_01.qcow2.vcdiff"
           "disk.2024_01_01.qcow2.vcdiff" "delta" true).
Proof.
  split; [|split].
  - apply (GetItem_delta_total (H := demoEnv) "" "rootfs.2024_01_01.vcdiff" "" false).
    reflexivity.
  - apply (GetItem_delta_total (H := demoEnv) "" "disk.2024_01_01.qcow2.vcdiff" "" false).
    reflexivity.
  - apply (GetItem_delta_total (H := demoEnv)). reflexivity.
Defined.

End stream_facts.

(** ** Items *)

Module GetItem_facts.
Import go_strings go_filepath go_strings_facts go_filepath_facts stream stream_facts.








End GetItem_facts.

(** ** Checksum files *)

Module ReadChecksumFile_facts.
Import go_strings go_bufio go_strings_facts stream.

Lemma Cut_app before after sep :
  ContainsByte before sep = false →
  Cut (before +:+ String sep after) sep = Some (before, after).
Proof.
  induction before as [|b before IH].
  - intros _. rewrite app_nil_l. simpl.
    by rewrite (proj2 (byte_eqb_true sep sep) eq_refl).
  - simpl. intros [Hb Hbefore]%orb_false_iff. by rewrite Hb, IH.
Qed.

Lemma Cut_Some s sep before after :
  Cut s sep = Some (before, after) ↔
  s = before +:+ String sep after ∧ ContainsByte before sep = false.
Proof.
  split; [|intros [-> ?]; by apply Cut_app].
  revert before. induction s as [|a s IH]; intros before; simpl; [done|].
  destruct (byte_eqb a sep) eqn:Ha.
  - apply byte_eqb_true in Ha as ->. by intros [= <- <-].
  - destruct (Cut s sep) as [[b' a']|]; [|done].
    intros [= <- <-]. destruct (IH b' eq_refl) as [-> Hb]. simpl. by rewrite Ha, Hb.
Qed.

(** A line adds the entry (filename, checksum) exactly when, trimmed, it
    is the checksum, a space and a rest that trims to the file name, the
    checksum being free of spaces. *)
Lemma checksumLine_Some text filename checksum :
  checksumLine text = Some (filename, checksum) ↔
  ∃ rest, TrimSpace text = checksum +:+ " " +:+ rest ∧
          ContainsByte checksum " " = false ∧ TrimSpace rest = filename.
Proof.
  unfold checksumLine, SplitN2.
  destruct (Cut (TrimSpace text) " ") as [[before after]|] eqn:E.
  - apply Cut_Some in E as [E Hb]. split.
    + intros [= <- <-]. by exists after.
    + intros (rest & Ht & Hc & <-).
      assert (Cut (TrimSpace text) " " = Some (checksum, rest)) as E' by by apply Cut_Some.
      assert (Cut (TrimSpace text) " " = Some (before, after)) as E'' by by apply Cut_Some.
      rewrite E' in E''. by injection E'' as -> ->.
  - split; [done|]. intros (rest & Ht & Hc & _).
    assert (Cut (TrimSpace text) " " = Some (checksum, rest)) as E' by by apply Cut_Some.
    congruence.
Qed.

(** The last line that names a file decides its checksum. *)
Lemma foldl_addLine lines checksums filename checksum :
  foldl addLine checksums lines !! filename = Some checksum ↔
  (∃ before text after,
     lines = before ++ text :: after ∧
     checksumLine text = Some (filename, checksum) ∧
     ∀ text' checksum', text' ∈ after → checksumLine text' ≠ Some (filename, checksum')) ∨
  (checksums !! filename = Some checksum ∧
   ∀ text' checksum', text' ∈ lines → checksumLine text' ≠ Some (filename, checksum')).
Proof.
  revert checksums. induction lines as [|text lines IH]; intros checksums; simpl.
  - split; [intros ?; right; split; [done|by intros ?? ?%elem_of_nil]|].
    intros [(before & ? & ? & Hl & _)|[? _]]; [by destruct before|done].
  - rewrite IH. clear IH. split.
    + intros [(before & t & after & -> & Ht & Hafter)|[Hm Hlines]].
      * left. exists (text :: before), t, after. done.
      * unfold addLine in Hm. destruct (checksumLine text) as [[f c]|] eqn:E.
        -- destruct (decide (f = filename)) as [->|Hne].
           ++ rewrite lookup_insert_eq in Hm. injection Hm as ->.
              left. exists [], text, lines. done.
           ++ rewrite lookup_insert_ne in Hm by done. right. split; [done|].
              intros t' c' [->|Hin]%elem_of_cons; [congruence|by apply Hlines].
        -- right. split; [done|].
           intros t' c' [->|Hin]%elem_of_cons; [congruence|by apply Hlines].
    + intros [(before & t & after & Hl & Ht & Hafter)|[Hm Hlines]].
      * destruct before as [|b before]; simpl in Hl.
        -- injection Hl as -> ->. right. split; [|done].
           unfold addLine. rewrite Ht. by rewrite lookup_insert_eq.
        -- injection Hl as -> ->. left. by exists before, t, after.
      * right. split.
        -- unfold addLine. destruct (checksumLine text) as [[f c]|] eqn:E; [|done].
           rewrite lookup_insert_ne; [done|]. intros ->.
           by apply (Hlines text c); [left|].
        -- intros t' c' Hin. apply Hlines. by right.
Qed.

(** C8, as amended: ReadChecksumFile returns, for every content, a map
    from file name to checksum. The map sends a file name to a checksum
    exactly when some scanned line, with the white space around it
    stripped, is that checksum, which has no space in it, then one space
    character (U+0020), then a rest that is the file name once the white
    space around it is stripped, and no later line names the same file.
    So the two-space form and any white space after the first space are
    tolerated; a line without a space character is ignored. *)
Theorem ReadChecksumFile_entries (content filename checksum : string) :
  ReadChecksumFile content !! filename = Some checksum ↔
  ∃ before text after rest,
    ScanLines content = before ++ text :: after ∧
    TrimSpace text = checksum +:+ " " +:+ rest ∧
    ContainsByte checksum " " = false ∧
    TrimSpace rest = filename ∧
    ∀ text' checksum' rest',
      text' ∈ after →
      TrimSpace text' = checksum' +:+ " " +:+ rest' →
      ContainsByte checksum' " " = false →
      TrimSpace rest' ≠ filename.
Proof.
  unfold ReadChecksumFile. rewrite foldl_addLine. split.
  - intros [(before & text & after & Hl & Ht & Hafter)|[Hm _]]; [|by rewrite lookup_empty in Hm].
    apply checksumLine_Some in Ht as (rest & Ht & Hc & Hf).
    exists before, text, after, rest. repeat split; try done.
    intros text' checksum' rest' Hin Ht' Hc' Hf'.
    apply (Hafter text' checksum' Hin). apply checksumLine_Some. by exists rest'.
  - intros (before & text & after & rest & Hl & Ht & Hc & Hf & Hafter). left.
    exists before, text, after. repeat split; try done.
    + apply checksumLine_Some. by exists rest.
    + intros text' checksum' Hin (rest' & Ht' & Hc' & Hf')%checksumLine_Some.
      by apply (Hafter text' checksum' rest').
Qed.

(** The two-space form of sha256sum, with white space around the fields. *)
Example ReadChecksumFile_two_spaces :
  map_to_list
    (ReadChecksumFile ("0a36  lxd.tar.xz" +:+ LF +:+ "  0a37   disk.qcow2 " +:+ TAB +:+ LF
                       +:+ "no-separator" +:+ LF +:+ "0a38 my image.squashfs"))
  = [("my image.squashfs", "0a38"); ("lxd.tar.xz", "0a36"); ("disk.qcow2", "0a37")].
Proof. vm_compute. reflexivity. Qed.

(** C8 as stated fails: a tab alone does not separate the two fields (the
    line is ignored), and a tab before the separating space stays in the
    checksum. *)
Lemma ReadChecksumFile_tab_separator :
  map_to_list (ReadChecksumFile ("0a36" +:+ TAB +:+ "lxd.tar.xz")) = [] ∧
  map_to_list (ReadChecksumFile ("0a36" +:+ TAB +:+ " lxd.tar.xz"))
    = [("lxd.tar.xz", "0a36" +:+ TAB)] ∧
  TrimSpace ("0a36" +:+ TAB) ≠ "0a36" +:+ TAB.
Proof. split; [|split]; vm_compute; [reflexivity..|discriminate]. Qed.

End ReadChecksumFile_facts.

(** ** Versions *)

Module GetVersion_facts.
Import go_strings go_filepath go_strings_facts go_filepath_facts stream stream_facts.

#[local] Arguments shared_HasSuffix : simpl never.

Section with_env.
Context `{Env}.

Lemma forEach_cons {A S} (a : A) l (body : S → A → result S) s :
  forEach (a :: l) body s = (s' ← body s a; forEach l body s').
Proof. done. Qed.

Lemma elem_of_range {V} (m : gmap string V) k v : (k, v) ∈ range m ↔ m !! k = Some v.
Proof. rewrite range_perm. apply elem_of_map_to_list. Qed.

Lemma GetItem_Name path name content calc item :
  GetItem path name content calc = Ok item → Name item = name.
Proof.
  unfold GetItem. cbv zeta. repeat case_bool_decide; try by intros [= <-].
  destruct (HasSuffix name ItemExtDiskKVMDelta);
    (destruct (index _ _); simpl; [by intros [= <-]|done..]).
Qed.

(** The type of an item with an allowed extension follows from the
    extension of its name. *)
Lemma GetItem_Ftype path name content calc item :
  shared_HasSuffix name allowedItemExtensions = true →
  GetItem path name content calc = Ok item →
  (Ftype item = ItemTypeSquashfs ↔ Ext name = ItemExtSquashfs) ∧
  (Ftype item = ItemTypeDiskKVM ↔ Ext name = ItemExtDiskKVM) ∧
  (Ftype item = ItemTypeRootTarXz ↔ name = ItemTypeRootTarXz).
Proof.
  intros Hallowed. unfold GetItem. cbv zeta.
  unfold ItemExtSquashfs, ItemExtDiskKVM, ItemTypeSquashfs, ItemTypeDiskKVM,
    ItemTypeRootTarXz, ItemTypeDiskKVMDelta, ItemTypeSquashfsDelta in *.
  case_bool_decide as E1.
  { intros [= <-]. simpl. repeat split; intros Hx; try done; try congruence.
    subst name. by vm_compute in E1. }
  case_bool_decide as E2.
  { intros [= <-]. simpl. repeat split; intros Hx; try done; try congruence.
    subst name. by vm_compute in E2. }
  case_bool_decide as E3.
  { assert (name ≠ "root.tar.xz") by (intros ->; by vm_compute in E3).
    destruct (HasSuffix name ItemExtDiskKVMDelta);
      (destruct (index _ _); simpl; [intros [= <-]|done..]); simpl;
      repeat split; intros Hx; try done; congruence. }
  intros [= <-]. simpl. repeat split; intros Hx; try done; try congruence.
  - subst name. by vm_compute in Hallowed.
  - subst name. by vm_compute in Hallowed.
Qed.

Lemma findFile_Some name files content :
  findFile name files = Some content → File name content ∈ files.
Proof.
  induction files as [|[n c|] files IH]; simpl; [done|..].
  - case_bool_decide as E; [intros [= <-]; subst; by left|].
    intros ?%IH. by right.
  - intros ?%IH. by right.
Qed.

Lemma findFile_is_Some name content files :
  File name content ∈ files → is_Some (findFile name files).
Proof.
  induction files as [|f files IH]; [by intros ?%elem_of_nil|].
  intros [<-|Hin]%elem_of_cons; simpl.
  - by rewrite bool_decide_true.
  - destruct f as [n c|]; [|by apply IH]. case_bool_decide; [done|by apply IH].
Qed.

(** What one step of the first loop does to the items. *)
Lemma scanFile_cases path calc v f :
  scanFile path calc v f = Err ErrVersionInvalidImageConfig ∧
    (∃ content, f = File FileImageConfig content ∧ ReadYAMLFile content = None) ∨
  ∃ v', scanFile path calc v f = Ok v' ∧
    match f with
    | File name content =>
        if shared_HasSuffix name allowedItemExtensions
        then ∃ item, GetItem (Join [path; name]) name content calc = Ok item ∧
                     Items v' = <[name := item]> (Items v)
        else Items v' = Items v ∧
             (name = FileImageConfig → ReadYAMLFile content ≠ None)
    | Dir _ _ => Items v' = Items v
    end.
Proof.
  destruct f as [name content|]; simpl; [|right; eauto].
  destruct (shared_HasSuffix name allowedItemExtensions) eqn:Hallowed.
  - right. destruct (GetItem_Ok (Join [path; name]) name content calc) as [item Hitem].
    rewrite Hitem. simpl. eexists. split; [done|]. by exists item.
  - case_bool_decide as E1.
    { right. eexists. split; [done|]. simpl. split; [done|]. subst. done. }
    case_bool_decide as E2; [|right; eexists; split; [done|]; by split].
    subst. destruct (ReadYAMLFile content) as [[config|]|] eqn:E.
    + right. eexists. split; [done|]. simpl. split; [done|]. congruence.
    + right. eexists. split; [done|]. split; [done|]. congruence.
    + left. split; [done|]. eauto.
Qed.

(** The first loop stops at an image.yaml that does not parse. *)
Lemma scan_invalid_config path calc files v :
  (∃ content, File FileImageConfig content ∈ files ∧ ReadYAMLFile content = None) →
  forEach files (scanFile path calc) v = Err ErrVersionInvalidImageConfig.
Proof.
  revert v. induction files as [|f files IH]; intros v (content & Hin & Hbad);
    [by apply elem_of_nil in Hin|].
  simpl. destruct (scanFile_cases path calc v f) as [[-> _]|(v' & -> & Hv')]; [done|].
  simpl. apply IH. apply elem_of_cons in Hin as [<-|Hin]; [|eauto].
  simpl in Hv'. destruct Hv' as [_ Hv']. by destruct (Hv' eq_refl).
Qed.

(** The first loop collects an item for each regular file with an
    allowed extension, and nothing else. *)
Lemma scan_items path calc files v :
  (∀ content, File FileImageConfig content ∈ files → ReadYAMLFile content ≠ None) →
  ∃ v', forEach files (scanFile path calc) v = Ok v' ∧
    (∀ name item, Items v' !! name = Some item →
       Items v !! name = Some item ∨
       shared_HasSuffix name allowedItemExtensions = true ∧
       ∃ content, File name content ∈ files ∧
                  GetItem (Join [path; name]) name content calc = Ok item) ∧
    (∀ name, is_Some (Items v !! name) → is_Some (Items v' !! name)) ∧
    (∀ name content, File name content ∈ files →
       shared_HasSuffix name allowedItemExtensions = true → is_Some (Items v' !! name)).
Proof.
  revert v. induction files as [|f files IH]; intros v Hyaml; simpl.
  { exists v. split; [done|]. split; [eauto|]. split; [done|].
    by intros ?? ?%elem_of_nil. }
  destruct (scanFile_cases path calc v f) as [[_ (content & -> & Hbad)]|(v1 & -> & Hv1)].
  { destruct (Hyaml content); [by left|done]. }
  simpl. destruct (IH v1) as (v' & -> & Hfrom & Hkeep & Hall).
  { intros content Hin. apply Hyaml. by right. }
  exists v'. split; [done|].
  assert (∀ name, is_Some (Items v !! name) → is_Some (Items v1 !! name)) as Hkeep1.
  { intros name Hname. destruct f as [n c|]; [|by rewrite Hv1].
    destruct (shared_HasSuffix n allowedItemExtensions).
    - destruct Hv1 as (item & _ & ->). rewrite lookup_insert. by case_decide.
    - by rewrite (proj1 Hv1). }
  split; [|split].
  - intros name item Hitem. destruct (Hfrom name item Hitem) as [H1|(Hallowed & c & Hin & Hget)].
    + destruct f as [n c|]; [|left; by rewrite <-Hv1].
      destruct (shared_HasSuffix n allowedItemExtensions) eqn:Hn.
      * destruct Hv1 as (item1 & Hget & Hitems). rewrite Hitems, lookup_insert in H1.
        case_decide; [|by left]. injection H1 as <-. subst. right.
        split; [done|]. exists c. split; [by left|done].
      * left. by rewrite <-(proj1 Hv1).
    + right. split; [done|]. exists c. split; [by right|done].
  - eauto.
  - intros name content [<-|Hin]%elem_of_cons Hallowed; [|by eapply Hall].
    apply Hkeep. simpl in Hv1. rewrite Hallowed in Hv1.
    destruct Hv1 as (item & _ & ->). by rewrite lookup_insert_eq.
Qed.

(** The second loop, over any part of the items: it does not fail, and
    it finds the version complete exactly when one of the items is a
    squashfs or a qcow2 root file system. *)
Lemma combine_loop files calc (l : list (string * Item)) metaItem complete :
  is_Some (findFile (Name metaItem) files) →
  (∀ k i, (k, i) ∈ l → is_Some (findFile (Name i) files)) →
  ∃ metaItem' complete',
    forEach l (combine files calc) (metaItem, complete) = Ok (metaItem', complete') ∧
    Name metaItem' = Name metaItem ∧
    (complete' = true ↔
       complete = true ∨
       ∃ k i, (k, i) ∈ l ∧ (Ftype i = ItemTypeSquashfs ∨ Ftype i = ItemTypeDiskKVM)).
Proof.
  revert metaItem complete. induction l as [|[k i] l IH]; intros metaItem complete Hm Hl.
  { exists metaItem, complete. split; [done|]. split; [done|].
    split; [by left|]. intros [?|(? & ? & ?%elem_of_nil & _)]; done. }
  assert (∃ metaItem1 complete1,
            combine files calc (metaItem, complete) (k, i) = Ok (metaItem1, complete1) ∧
            Name metaItem1 = Name metaItem ∧
            (complete1 = true ↔
               complete = true ∨ Ftype i = ItemTypeSquashfs ∨ Ftype i = ItemTypeDiskKVM))
    as (metaItem1 & complete1 & Hstep & Hname & Hcomplete).
  { unfold combine. simpl. unfold ValueInSlice.
    destruct (decide (Ftype i ∈ [ItemTypeSquashfs; ItemTypeDiskKVM; ItemTypeRootTarXz]))
      as [Hin|Hnotin].
    - rewrite bool_decide_true by done. simpl.
      assert (∃ h, (if calc
                    then meta ← readFile files (Name metaItem);
                         body ← readFile files (Name i); Ok (FileHash [meta; body])
                    else Ok "") = Ok h) as [h ->].
      { destruct calc; [|eauto]. unfold readFile.
        destruct Hm as [mc ->]. destruct (Hl k i) as [ic ->]; [by left|]. simpl. eauto. }
      simpl. rewrite !elem_of_cons, elem_of_nil in Hin.
      destruct Hin as [E|[E|[E|[]]]]; rewrite E; vm_compute bool_decide; cbv iota.
      + eexists _, _. split; [done|]. split; [done|]. split; eauto.
      + eexists _, _. split; [done|]. split; [done|]. split; eauto.
      + eexists _, _. split; [done|]. split; [done|]. split; [by left|].
        intros [?|[?|?]]; done.
    - rewrite bool_decide_false by done. simpl.
      exists metaItem, complete. split; [done|]. split; [done|].
      rewrite !elem_of_cons in Hnotin. split; [by left|].
      intros [?|[?|?]]; [done|..]; destruct Hnotin; auto. }
  rewrite forEach_cons, Hstep. simpl.
  destruct (IH metaItem1 complete1) as (metaItem' & complete' & -> & Hname' & Hcomplete').
  { by rewrite Hname. }
  { intros ???. eapply Hl. by right. }
  exists metaItem', complete'. split; [done|]. split; [congruence|].
  rewrite Hcomplete', Hcomplete. split.
  - intros [[?|Hi]|(k' & i' & Hin & Hi)]; [by left|..].
    + right. exists k, i. split; [by left|done].
    + right. exists k', i'. split; [by right|done].
  - intros [?|(k' & i' & [[= -> ->]|Hin]%elem_of_cons & Hi)]; [by left; left|..].
    + left. by right.
    + right. eauto.
Qed.


(** The combined hash with root.tar.xz that the second loop leaves on
    the metadata item. *)
Lemma combine_loop_rootxz files calc (l : list (string * Item)) metaItem complete
    metaItem' complete' mc rc :
  forEach l (combine files calc) (metaItem, complete) = Ok (metaItem', complete') →
  findFile (Name metaItem) files = Some mc →
  findFile ItemTypeRootTarXz files = Some rc →
  (∀ k i, (k, i) ∈ l → Ftype i = ItemTypeRootTarXz → Name i = ItemTypeRootTarXz) →
  CombinedSHA256RootXz metaItem' =
    if bool_decide (Exists (λ e, Ftype e.2 = ItemTypeRootTarXz) l)
    then (if calc then FileHash [mc; rc] else "")
    else CombinedSHA256RootXz metaItem.
Proof.
  revert metaItem complete. induction l as [|[k i] l IH]; intros metaItem complete.
  { intros [= <- <-] _ _ _. rewrite bool_decide_false; [done|].
    by intros ?%Exists_nil. }
  rewrite forEach_cons. intros Hloop Hm Hr Hl.
  destruct (combine files calc (metaItem, complete) (k, i)) as [[metaItem1 complete1]| |]
    eqn:Hstep; [|done..].
  simpl in Hloop.
  assert (Name metaItem1 = Name metaItem ∧
          CombinedSHA256RootXz metaItem1 =
            if bool_decide (Ftype i = ItemTypeRootTarXz)
            then (if calc then FileHash [mc; rc] else "")
            else CombinedSHA256RootXz metaItem) as [Hname Hroot].
  { unfold combine in Hstep. simpl in Hstep. unfold ValueInSlice in Hstep.
    destruct (decide (Ftype i ∈ [ItemTypeSquashfs; ItemTypeDiskKVM; ItemTypeRootTarXz]))
      as [Hin|Hin];
      [rewrite bool_decide_true in Hstep by done
      |rewrite bool_decide_false in Hstep by done]; simpl in Hstep.
    - rewrite !elem_of_cons, elem_of_nil in Hin.
      destruct Hin as [E|[E|[E|[]]]]; rewrite E in Hstep |- *;
        vm_compute bool_decide in Hstep; vm_compute bool_decide; cbv iota.
      + match type of Hstep with ?x ≫= _ = _ => destruct x end;
          simpl in Hstep; [|done..]. by injection Hstep as <- <-.
      + match type of Hstep with ?x ≫= _ = _ => destruct x end;
          simpl in Hstep; [|done..]. by injection Hstep as <- <-.
      + destruct calc; simpl in Hstep; [|by injection Hstep as <- <-].
        unfold readFile in Hstep. rewrite Hm in Hstep. simpl in Hstep.
        rewrite (Hl k i) in Hstep by (by left || done). rewrite Hr in Hstep.
        simpl in Hstep. by injection Hstep as <- <-.
    - injection Hstep as <- <-. split; [done|].
      rewrite bool_decide_false; [done|]. intros E. apply Hin. rewrite E.
      rewrite !elem_of_cons. auto. }
  rewrite (IH metaItem1 complete1 Hloop); [|by rewrite Hname|done|].
  2:{ intros ????. eapply Hl; [by right|done]. }
  rewrite Hroot. clear.
  destruct (decide (Exists (λ e : string * Item, Ftype e.2 = ItemTypeRootTarXz) l))
    as [Hrest|Hrest].
  - rewrite !bool_decide_true; [done| |done]. by right.
  - rewrite (bool_decide_false _ Hrest).
    destruct (decide (Ftype i = ItemTypeRootTarXz)) as [Hi|Hi].
    + rewrite !bool_decide_true; [done|by left|done].
    + rewrite !bool_decide_false; [done| |done]. by intros [?|?]%Exists_cons.
Qed.

Lemma Ext_iff_HasSuffix name t :
  ContainsByte t "." = false → ContainsByte t "/" = false →
  Ext name = String "." t ↔ HasSuffix name (String "." t) = true.
Proof.
  intros Hdot Hslash. rewrite HasSuffix_spec. split.
  - intros Hext. destruct (Ext_suffix name) as [p Hp]. exists p. by rewrite Hext in Hp.
  - intros [p ->]. by apply Ext_app.
Qed.


Lemma allowed_rootfs name :
  HasSuffix name ItemExtSquashfs = true ∨ HasSuffix name ItemExtDiskKVM = true →
  shared_HasSuffix name allowedItemExtensions = true.
Proof.
  unfold shared_HasSuffix, allowedItemExtensions. simpl.
  intros [-> | ->]; by rewrite ?orb_true_r.
Qed.

(** C5, as amended: on a directory that can be read, GetVersion fails
    with the invalid-image-config error when an image.yaml of the
    directory does not parse; otherwise it returns a Version exactly when
    the directory holds a file named lxd.tar.xz and at least one file of
    type squashfs or disk-kvm.img (a name ending in .squashfs or .qcow2),
    and fails with the version-incomplete error when it does not. A
    root.tar.xz does not count for completeness; on a returned version
    the combined hash of lxd.tar.xz and root.tar.xz is on the metadata
    item (it is empty when hashes are not calculated). *)
Theorem GetVersion_complete (root : Node) (versionRelPath : string)
    (calcHashes : bool) (files : list Node) :
  os_ReadDir root versionRelPath = Ok files →
  ((∃ content, File FileImageConfig content ∈ files ∧ ReadYAMLFile content = None) →
     GetVersion root versionRelPath calcHashes = Err ErrVersionInvalidImageConfig) ∧
  ((∀ content, File FileImageConfig content ∈ files → ReadYAMLFile content ≠ None) →
     (completeDir files →
        ∃ version metaItem,
          GetVersion root versionRelPath calcHashes = Ok version ∧
          Items version !! ItemTypeMetadata = Some metaItem ∧
          ∀ mc rc,
            findFile ItemTypeMetadata files = Some mc →
            findFile ItemTypeRootTarXz files = Some rc →
            CombinedSHA256RootXz metaItem =
              if calcHashes then FileHash [mc; rc] else "") ∧
     (¬ completeDir files →
        GetVersion root versionRelPath calcHashes =
          Err (ErrVersionIncomplete versionRelPath))).
Proof.
  intros Hread. unfold GetVersion. rewrite Hread. simpl.
  split; [intros Hbad; by rewrite scan_invalid_config|].
  intros Hyaml.
  destruct (scan_items versionRelPath calcHashes files
              {| Checksums := None; Version_ImageConfig := None; Items := ∅ |} Hyaml)
    as (v & -> & Hfrom & _ & Hall). simpl in Hfrom |- *.
  assert (∀ name item, Items v !! name = Some item →
            shared_HasSuffix name allowedItemExtensions = true ∧
            ∃ content, File name content ∈ files ∧
              GetItem (Join [versionRelPath; name]) name content calcHashes = Ok item)
    as Hitems.
  { intros name item Hitem. destruct (Hfrom name item Hitem) as [Hempty|?]; [|done].
    by rewrite lookup_empty in Hempty. }
  clear Hfrom.
  assert (∀ k i, (k, i) ∈ range (Items v) → Name i = k ∧ is_Some (findFile (Name i) files))
    as Hrange.
  { intros k i Hin%elem_of_range. destruct (Hitems k i Hin) as (_ & c & Hc & Hget).
    apply GetItem_Name in Hget as ->. split; [done|]. by eapply findFile_is_Some. }
  assert ((∃ k i, (k, i) ∈ range (Items v) ∧
                  (Ftype i = ItemTypeSquashfs ∨ Ftype i = ItemTypeDiskKVM)) ↔
          (∃ name content, File name content ∈ files ∧
             (HasSuffix name ItemExtSquashfs = true ∨ HasSuffix name ItemExtDiskKVM = true)))
    as Hrootfs.
  { split.
    - intros (k & i & Hin%elem_of_range & Hi).
      destruct (Hitems k i Hin) as (Hallowed & c & Hc & Hget).
      destruct (GetItem_Ftype _ _ _ _ _ Hallowed Hget) as (Hs & Hq & _).
      exists k, c. split; [done|].
      rewrite <-(Ext_iff_HasSuffix k "squashfs"), <-(Ext_iff_HasSuffix k "qcow2") by done.
      rewrite <-Hs, <-Hq. done.
    - intros (name & c & Hc & Hname).
      pose proof (allowed_rootfs name Hname) as Hallowed.
      destruct (Hall name c Hc Hallowed) as [i Hi].
      destruct (Hitems name i Hi) as (_ & c' & Hc' & Hget).
      destruct (GetItem_Ftype _ _ _ _ _ Hallowed Hget) as (Hs & Hq & _).
      exists name, i. split; [by apply elem_of_range|].
      rewrite Hs, Hq.
      by rewrite (Ext_iff_HasSuffix name "squashfs"), (Ext_iff_HasSuffix name "qcow2"). }
  split.
  - intros [[mc Hmc] Hfs].
    destruct (Hall ItemTypeMetadata mc Hmc eq_refl) as [metaItem Hmeta].
    rewrite Hmeta.
    assert (Name metaItem = ItemTypeMetadata) as Hname.
    { destruct (Hitems _ _ Hmeta) as (_ & c & _ & Hget). by apply GetItem_Name in Hget. }
    destruct (combine_loop files calcHashes (range (Items v)) metaItem false)
      as (metaItem' & complete' & Hloop & Hname' & Hcomplete).
    { rewrite Hname. by eapply findFile_is_Some. }
    { intros k i Hin. by destruct (Hrange k i Hin). }
    rewrite Hloop. simpl.
    assert (complete' = true) as ->.
    { apply Hcomplete. right. by apply Hrootfs. }
    simpl. eexists _, metaItem'. split; [done|]. simpl.
    split; [by rewrite lookup_insert_eq|].
    intros mc' rc Hmc' Hrc.
    rewrite (combine_loop_rootxz _ _ _ _ _ _ _ mc' rc Hloop); [|by rewrite Hname|done|].
    2:{ intros k i Hin%elem_of_range Hi.
        destruct (Hitems k i Hin) as (Hallowed & c & Hc & Hget).
        destruct (GetItem_Ftype _ _ _ _ _ Hallowed Hget) as (_ & _ & Hr).
        apply GetItem_Name in Hget. rewrite Hget. by apply Hr. }
    case_bool_decide as Hroot; [done|].
    destruct Hroot. apply Exists_exists.
    pose proof (findFile_Some ItemTypeRootTarXz files rc Hrc) as Hfile.
    destruct (Hall ItemTypeRootTarXz rc Hfile eq_refl) as [i Hi].
    exists (ItemTypeRootTarXz, i). split; [by apply elem_of_range|].
    destruct (Hitems _ _ Hi) as (Hallowed & c & Hc & Hget).
    by apply (GetItem_Ftype _ _ _ _ _ Hallowed Hget).
  - intros Hincomplete.
    destruct (Items v !! ItemTypeMetadata) as [metaItem|] eqn:Hmeta; [|done].
    destruct (Hitems _ _ Hmeta) as (_ & mc & Hmc & Hget).
    apply GetItem_Name in Hget as Hname.
    destruct (combine_loop files calcHashes (range (Items v)) metaItem false)
      as (metaItem' & complete' & Hloop & Hname' & Hcomplete).
    { rewrite Hname. by eapply findFile_is_Some. }
    { intros k i Hin. by destruct (Hrange k i Hin). }
    rewrite Hloop. simpl.
    destruct complete'; [|done].
    destruct Hincomplete. split; [by exists mc|].
    apply Hrootfs. by destruct (proj1 Hcomplete eq_refl).
Qed.

End with_env.

Lemma GetVersion_complete_witness :
  ∃ version metaItem,
    GetVersion (H := demoEnv) demo.versions "complete" true = Ok version ∧
    Items version !! ItemTypeMetadata = Some metaItem ∧
    CombinedSHA256RootXz metaItem = "sha256(metatar)".
Proof.
  destruct (GetVersion_complete (H := demoEnv) demo.versions "complete" true
              demo.completeFiles eq_refl) as [_ Hvalid].
  destruct Hvalid as [Hcomplete _].
  - intros content Hin. unfold demo.completeFiles in Hin.
    rewrite !elem_of_cons, elem_of_nil in Hin.
    destruct Hin as [Hc|[Hc|[Hc|[Hc|[]]]]]; try discriminate Hc.
    injection Hc as ->. discriminate.
  - destruct Hcomplete as (version & metaItem & Hversion & Hmeta & Hroot).
    + split.
      * exists "meta". unfold demo.completeFiles. rewrite !elem_of_cons. auto.
      * exists "rootfs.squashfs", "fs". split; [|by left].
        unfold demo.completeFiles. rewrite !elem_of_cons. auto 6.
    + exists version, metaItem. split; [exact Hversion|]. split; [exact Hmeta|].
      exact (Hroot "meta" "tar" eq_refl eq_refl).
Defined.

(** C5 as stated fails on a complete directory whose image.yaml does not
    parse: GetVersion returns no Version, and the error is not the
    version-incomplete one. *)
Lemma GetVersion_invalid_config :
  completeDir demo.brokenConfigFiles ∧
  os_ReadDir demo.versions "broken" = Ok demo.brokenConfigFiles ∧
  GetVersion (H := demoEnv) demo.versions "broken" true = Err ErrVersionInvalidImageConfig.
Proof.
  split; [|by vm_compute]. split.
  - exists "meta". unfold demo.brokenConfigFiles. rewrite !elem_of_cons. auto.
  - exists "rootfs.squashfs", "fs". split; [|by left].
    unfold demo.brokenConfigFiles. rewrite !elem_of_cons. auto.
Qed.

(** A root tarball next to the metadata does not make a version. *)
Example GetVersion_tarball_only :
  GetVersion (H := demoEnv) demo.versions "tarball" true = Err (ErrVersionIncomplete "tarball").
Proof. by vm_compute. Qed.

End GetVersion_facts.

(** ** The catalog build *)

Module buildProductCatalog_facts.
Import go_strings go_filepath stream maintainer GetVersion_facts.

(** A loop keeps what each of its steps keeps. *)
Lemma forEach_preserves {A S} (R : relation S) `{!Reflexive R, !Transitive R}
    (l : list A) (body : S → A → result S) (s s' : S) :
  (∀ s a s', a ∈ l → body s a = Ok s' → R s s') →
  forEach l body s = Ok s' → R s s'.
Proof.
  revert s. induction l as [|a l IH]; intros s Hbody; simpl.
  - by intros [= <-].
  - destruct (body s a) as [s1| |] eqn:Hstep; simpl; [|done..].
    intros Hrest. trans s1.
    + eapply Hbody; [by left|done].
    + apply IH; [|done]. intros ???? . apply Hbody. by right.
Qed.

Lemma refers_refl products : keeps products products.
Proof. by intros ???. Qed.

#[local] Instance keeps_refl : Reflexive keeps.
Proof. intros ?. apply refers_refl. Qed.

#[local] Instance keeps_trans : Transitive keeps.
Proof. intros x y z Hxy Hyz id v Hx. by apply Hyz, Hxy. Qed.

(** Writing a version into a product keeps every version of every
    product. *)
Lemma assignVersion_keeps products id name v products' :
  assignVersion products id name v = Ok products' → keeps products products'.
Proof.
  unfold assignVersion. destruct (products !! id) as [p|] eqn:Hp; simpl; [|done].
  destruct (Versions p) as [vs|] eqn:Hvs; simpl; [|done].
  intros [= <-] id' v' (p' & Hp' & Hv').
  destruct (decide (id' = id)) as [->|Hne].
  - rewrite Hp in Hp'. injection Hp' as <-. rewrite Hvs in Hv'. simpl in Hv'.
    eexists. split; [by rewrite lookup_insert_eq|]. simpl.
    rewrite lookup_insert. by case_decide.
  - exists p'. by rewrite lookup_insert_ne.
Qed.

(** Adding a product under an ID that is not in the map keeps every
    version of every product. *)
Lemma insert_new_keeps (products : gmap string Product) id p :
  products !! id = None → keeps products (<[id := p]> products).
Proof.
  intros Hnone id' v' (p' & Hp' & Hv'). exists p'. split; [|done].
  rewrite lookup_insert_ne; [done|]. intros ->. congruence.
Qed.

#[local] Instance keepsCatalog_refl : Reflexive keepsCatalog.
Proof. intros ?. unfold keepsCatalog. reflexivity. Qed.

#[local] Instance keepsCatalog_trans : Transitive keepsCatalog.
Proof. intros ???. unfold keepsCatalog. apply keeps_trans. Qed.

(** C7: buildProductCatalog never deletes from the catalog. Every
    (productID, versionName) pair of the previously published catalog,
    as loaded from streams/<v>/<stream>.json, is in the catalog the
    function returns, whatever the disk holds. *)
Theorem buildProductCatalog_keeps_published `{Env} (root : Node) (h : History)
    (streamVersion streamName : string) (workers : Z)
    (published : ProductCatalog) (root' : Node) (catalog : ProductCatalog) :
  meta.ReadJSONFile h (Join ["streams"; streamVersion; streamName +:+ ".json"])
    = Ok (Some published) →
  buildProductCatalog root h streamVersion streamName workers = Ok (root', catalog) →
  ∀ id versionName,
    references published id versionName → references catalog id versionName.
Proof.
  intros Hread. unfold buildProductCatalog. rewrite Hread. simpl.
  destruct (GetProducts root streamName) as [products| |]; simpl; [|done..].
  destruct (diffProducts (Products published) (Some products)) as [diff| |]; simpl; [|done..].
  intros Hloop. unfold references.
  change (keepsCatalog (root, published) (root', catalog)).
  eapply (forEach_preserves keepsCatalog); [|exact Hloop]. clear Hloop.
  intros [r c] [id p] [r' c'] _. simpl.
  case_bool_decide; [by intros [= <- <-]|].
  destruct (mapEntries (Products c) !! id) as [existing|] eqn:Hid; simpl.
  - intros Hjobs. eapply (forEach_preserves keepsCatalog); [|exact Hjobs].
    intros [r1 c1] [versionName v] [r2 c2] _. simpl.
    destruct (job r1 _ versionName) as [r3 [[version|]| |]]; [| |done..].
    + destruct (assignVersion _ id versionName version) as [ps| |] eqn:Hassign;
        simpl; [|done..].
      intros [= <- <-]. unfold keepsCatalog. simpl. by eapply assignVersion_keeps.
    + intros [= <- <-]. unfold keepsCatalog. reflexivity.
  - destruct (Products c) as [ps|] eqn:Hps; simpl; [|done].
    intros Hjobs. trans (r, withProducts c (Some (<[id := withVersions (default zeroProduct (products !! id)) (Some ∅)]> ps))).
    { unfold keepsCatalog. simpl. rewrite Hps. simpl. by apply insert_new_keeps. }
    eapply (forEach_preserves keepsCatalog); [|exact Hjobs].
    intros [r1 c1] [versionName v] [r2 c2] _. simpl.
    destruct (job r1 _ versionName) as [r3 [[version|]| |]]; [| |done..].
    + destruct (assignVersion _ id versionName version) as [ps'| |] eqn:Hassign;
        simpl; [|done..].
      intros [= <- <-]. unfold keepsCatalog. simpl. by eapply assignVersion_keeps.
    + intros [= <- <-]. unfold keepsCatalog. reflexivity.
Qed.

Lemma buildProductCatalog_keeps_published_witness :
  ∃ root' catalog,
    buildProductCatalog (H := demoEnv) demo.oneVersion demo.debianPublished "v1" "images" 2
      = Ok (root', catalog) ∧
    references catalog "debian:bookworm:amd64:cloud" "2023_12_31" ∧
    references catalog "ubuntu:noble:amd64:cloud" "2024_01_01".
Proof.
  eexists _, _. split; [vm_compute; reflexivity|]. split.
  - eapply (buildProductCatalog_keeps_published (H := demoEnv) demo.oneVersion
              demo.debianPublished "v1" "images" 2).
    + vm_compute. reflexivity.
    + vm_compute. reflexivity.
    + eexists. split; [vm_compute; reflexivity|]. vm_compute. eexists. reflexivity.
  - eexists. split; [vm_compute; reflexivity|]. vm_compute. eexists. reflexivity.
Defined.

End buildProductCatalog_facts.


Module diffProducts_facts.
Import stream maintainer GetVersion_facts.

#[local] Arguments versionStep : simpl never.
#[local] Arguments productStep : simpl never.

Section with_env.
Context `{Env}.

Lemma NoDup_range {V} (m : gmap string V) : NoDup (range m).*1.
Proof. rewrite range_perm. apply NoDup_fst_map_to_list. Qed.

(** The write of the inner loop panics: nothing was stored under the
    ID of a product that both maps have. *)
Lemma assignVersion_new_panics (missing : gmap string Product) id name v :
  missing !! id = None → assignVersion missing id name v = nilMapPanic.
Proof. intros Hid. unfold assignVersion. by rewrite Hid. Qed.

Lemma inner_loop other id (l : list (string * Version)) (missing : gmap string Product) :
  missing !! id = None →
  forEach l (versionStep other id) missing =
    if bool_decide (Forall (λ e, is_Some (mapEntries (Versions other) !! e.1)) l)
    then Ok missing else nilMapPanic.
Proof.
  intros Hid. induction l as [|[name v] l IH]; [done|].
  rewrite forEach_cons.
  assert (versionStep other id missing (name, v) =
          match mapEntries (Versions other) !! name with
          | Some _ => Ok missing
          | None => nilMapPanic
          end) as ->.
  { unfold versionStep. simpl. destruct (mapEntries (Versions other) !! name); [done|].
    by apply assignVersion_new_panics. }
  destruct (mapEntries (Versions other) !! name) as [v'|] eqn:Hname; simpl.
  - rewrite IH.
    destruct (decide (Forall (λ e : string * Version,
                                is_Some (mapEntries (Versions other) !! e.1)) l))
      as [Hl|Hl].
    + rewrite !bool_decide_true; [done| |done]. constructor; [simpl; by rewrite Hname|done].
    + rewrite !bool_decide_false; [done| |done]. by intros [_ ?]%Forall_cons.
  - rewrite bool_decide_false; [done|].
    intros [[? Hsome] _]%Forall_cons. simpl in Hsome. congruence.
Qed.

#[local] Instance settled_dec those entry : Decision (settled those entry).
Proof.
  unfold settled. destruct (those !! entry.1) as [q|].
  - destruct (decide (Forall (λ e : string * Version,
                                is_Some (mapEntries (Versions q) !! e.1))
                        (map_to_list (mapEntries (Versions entry.2))))) as [Hall|Hnot].
    + left. intros ? [= <-] name [v Hv].
      rewrite Forall_forall in Hall. by apply (Hall (name, v)), elem_of_map_to_list.
    + right. intros Hall. apply Hnot, Forall_forall. intros [name v] Hin%elem_of_map_to_list.
      apply (Hall q eq_refl name). by exists v.
  - left. by intros ? [=].
Defined.

Lemma not_settled those entry :
  ¬ settled those entry →
  ∃ q name, those !! entry.1 = Some q ∧
            is_Some (mapEntries (Versions entry.2) !! name) ∧
            mapEntries (Versions q) !! name = None.
Proof.
  intros Hnot. destruct (those !! entry.1) as [q|] eqn:Hq.
  - destruct (decide (Forall (λ e : string * Version,
                                is_Some (mapEntries (Versions q) !! e.1))
                        (map_to_list (mapEntries (Versions entry.2))))) as [Hall|Hex].
    + destruct Hnot. intros ? Hq' name [v Hv]. rewrite Hq in Hq'. injection Hq' as <-.
      rewrite Forall_forall in Hall. by apply (Hall (name, v)), elem_of_map_to_list.
    + apply not_Forall_Exists in Hex; [|apply _].
      apply Exists_exists in Hex as ([name v] & Hin%elem_of_map_to_list & Hnone).
      exists q, name. split; [done|]. split; [by exists v|].
      simpl in Hnone. by apply eq_None_not_Some.
  - destruct Hnot. intros q Hq'. congruence.
Qed.

Lemma outer_step those missing entry :
  (∀ id, is_Some (those !! id) → missing !! id = None) →
  productStep those missing entry =
    if bool_decide (settled those entry)
    then Ok (match those !! entry.1 with
             | Some _ => missing
             | None => <[entry.1 := entry.2]> missing
             end)
    else nilMapPanic.
Proof.
  intros Hdisjoint. unfold productStep.
  destruct (those !! entry.1) as [other|] eqn:Hother.
  - rewrite inner_loop by (apply Hdisjoint; by rewrite Hother).
    destruct (decide (Forall (λ e : string * Version,
                                is_Some (mapEntries (Versions other) !! e.1))
                        (range (mapEntries (Versions entry.2))))) as [Hall|Hnot].
    + rewrite !bool_decide_true; [done| |done].
      intros q Hq name [v Hv]. rewrite Hother in Hq. injection Hq as <-.
      rewrite Forall_forall in Hall. by apply (Hall (name, v)), elem_of_range.
    + rewrite !bool_decide_false; [done| |done].
      intros Hall. apply Hnot, Forall_forall.
      intros [name v] Hin%elem_of_range. apply (Hall other Hother). by exists v.
  - rewrite bool_decide_true; [done|]. intros q Hq. congruence.
Qed.

Lemma outer_loop those (l : list (string * Product)) missing :
  (∀ id, is_Some (those !! id) → missing !! id = None) →
  NoDup l.*1 →
  if bool_decide (Forall (settled those) l)
  then ∃ missing',
         forEach l (productStep those) missing = Ok missing' ∧
         ∀ id p, missing' !! id = Some p ↔
                 ((id, p) ∈ l ∧ those !! id = None) ∨
                 (missing !! id = Some p ∧ id ∉ l.*1)
  else forEach l (productStep those) missing = nilMapPanic.
Proof.
  revert missing. induction l as [|[id0 p0] l IH]; intros missing Hdisjoint Hnodup.
  { rewrite bool_decide_true by done. exists missing. split; [done|].
    intros id p. rewrite elem_of_nil. split; [intros ?; right; split; [done|]|].
    - by intros ?%elem_of_nil.
    - by intros [[[] _]|[? _]]. }
  apply NoDup_cons in Hnodup as [Hid0 Hnodup]. simpl in Hid0.
  rewrite forEach_cons, outer_step by done.
  destruct (decide (settled those (id0, p0))) as [Hsettled|Hnot].
  2:{ rewrite (bool_decide_false _ Hnot). simpl.
      rewrite bool_decide_false; [done|]. by intros [? _]%Forall_cons. }
  rewrite (bool_decide_true _ Hsettled). simpl.
  set (missing1 := match those !! id0 with
                   | Some _ => missing
                   | None => <[id0 := p0]> missing
                   end).
  assert (∀ id, is_Some (those !! id) → missing1 !! id = None) as Hdisjoint1.
  { intros id Hid. unfold missing1. destruct (those !! id0) eqn:Hid0'; [by apply Hdisjoint|].
    rewrite lookup_insert_ne; [by apply Hdisjoint|]. intros ->. rewrite Hid0' in Hid.
    by destruct Hid. }
  specialize (IH missing1 Hdisjoint1 Hnodup).
  destruct (decide (Forall (settled those) l)) as [Hl|Hl].
  2:{ rewrite (bool_decide_false _ Hl) in IH. rewrite IH.
      rewrite bool_decide_false; [done|]. by intros [_ ?]%Forall_cons. }
  rewrite (bool_decide_true _ Hl) in IH. rewrite bool_decide_true by by constructor.
  destruct IH as (missing' & -> & Hmissing'). exists missing'. split; [done|].
  intros id p. rewrite Hmissing'. unfold missing1. simpl.
  rewrite elem_of_cons, not_elem_of_cons. split.
  - intros [[Hin Hnone]|[Hm Hnotin]]; [by left; split; [right|]|].
    destruct (those !! id0) eqn:Hthose.
    + right. split; [done|]. split; [|done]. intros ->.
      rewrite Hdisjoint in Hm; [done|]. by rewrite Hthose.
    + rewrite lookup_insert in Hm. case_decide as Heq.
      * injection Hm as <-. subst. left. split; [by left|done].
      * right. split; [done|]. split; [congruence|done].
  - intros [[[[= -> ->]|Hin] Hnone]|[Hm [Hne Hnotin]]].
    + right. rewrite Hnone. rewrite lookup_insert_eq. done.
    + by left.
    + right. split; [|done]. destruct (those !! id0); [done|].
      by rewrite lookup_insert_ne.
Qed.

(** One direction of diffProducts: either a product of [these] that
    [those] has too has a version that [those] lacks, and the code
    panics, or the result is the products of [these] that [those] does
    not have. *)
Lemma missingFrom_cases (those these : option (gmap string Product)) :
  (newVersionIn (mapEntries those) (mapEntries these) ∧
   missingFrom those these = nilMapPanic) ∨
  (¬ newVersionIn (mapEntries those) (mapEntries these) ∧
   ∃ missing,
     missingFrom those these = Ok missing ∧
     ∀ id p, missing !! id = Some p ↔
             mapEntries these !! id = Some p ∧ mapEntries those !! id = None).
Proof.
  pose proof (outer_loop (mapEntries those) (range (mapEntries these)) ∅) as Hloop.
  assert (Forall (settled (mapEntries those)) (range (mapEntries these)) ↔
          ¬ newVersionIn (mapEntries those) (mapEntries these)) as Hsettled.
  { rewrite Forall_forall. split.
    - intros Hall (id & p & q & name & Hp & Hq & Hname & Hnone).
      destruct (Hall (id, p) (proj2 (elem_of_range _ _ _) Hp) q Hq name Hname). simpl in *.
      congruence.
    - intros Hnew [id p] Hin%elem_of_range q Hq name Hname. simpl in *.
      destruct (mapEntries (Versions q) !! name) eqn:Hlookup; [done|].
      destruct Hnew. by exists id, p, q, name. }
  unfold missingFrom.
  destruct (decide (Forall (settled (mapEntries those)) (range (mapEntries these))))
    as [Hall|Hnot].
  - right. split; [by apply Hsettled|].
    rewrite (bool_decide_true _ Hall) in Hloop.
    destruct Hloop as (missing & -> & Hmissing); [done|apply NoDup_range|].
    exists missing. split; [done|]. intros id p. rewrite Hmissing, lookup_empty.
    rewrite elem_of_range. split; [by intros [?|[? _]]|by left].
  - left. rewrite (bool_decide_false _ Hnot) in Hloop. split.
    + apply not_Forall_Exists in Hnot; [|apply _].
      apply Exists_exists in Hnot as ([id p] & Hin%elem_of_range & Hnot).
      destruct (not_settled _ _ Hnot) as (q & name & Hq & Hname & Hnone).
      by exists id, p, q, name.
    + apply Hloop; [done|apply NoDup_range].
Qed.


(** When no product that both maps have has a version that the other
    map lacks, diffProducts returns the products that only one of the
    maps has, in full. *)
Lemma diffProducts_whole_products (oldProducts newProducts : option (gmap string Product)) :
  ¬ newVersionIn (mapEntries oldProducts) (mapEntries newProducts) →
  ¬ newVersionIn (mapEntries newProducts) (mapEntries oldProducts) →
  ∃ removed added,
    diffProducts oldProducts newProducts = Ok (removed, added) ∧
    (∀ id p, added !! id = Some p ↔
             mapEntries newProducts !! id = Some p ∧ mapEntries oldProducts !! id = None) ∧
    (∀ id p, removed !! id = Some p ↔
             mapEntries oldProducts !! id = Some p ∧ mapEntries newProducts !! id = None).
Proof.
  intros Hnew Hold. unfold diffProducts.
  destruct (missingFrom_cases oldProducts newProducts)
    as [[? _]|(_ & added & -> & Hadded)]; [done|].
  destruct (missingFrom_cases newProducts oldProducts)
    as [[? _]|(_ & removed & -> & Hremoved)]; [done|].
  simpl. by exists removed, added.
Qed.

(** C2 (the code is wrong): diffProducts does not return the versions
    that a product present in both maps has on one side only. It
    panics ("assignment to entry in nil map"), because the product
    entry it writes the version into was never created. *)
Theorem diffProducts_new_version_panics
    (oldProducts newProducts : option (gmap string Product)) :
  newVersionIn (mapEntries oldProducts) (mapEntries newProducts) ∨
  newVersionIn (mapEntries newProducts) (mapEntries oldProducts) →
  diffProducts oldProducts newProducts = nilMapPanic.
Proof.
  intros Hnew. unfold diffProducts.
  destruct (missingFrom_cases oldProducts newProducts)
    as [[_ ->]|(Hnone & added & -> & _)]; [done|]. simpl.
  destruct (missingFrom_cases newProducts oldProducts)
    as [[_ ->]|(Hnone' & _)]; [done|]. by destruct Hnew.
Qed.

End with_env.

Lemma diffProducts_new_version_panics_witness :
  diffProducts (H := demoEnv) demo.oldProducts demo.newProducts = nilMapPanic.
Proof.
  apply (diffProducts_new_version_panics (H := demoEnv)). left.
  exists "ubuntu:noble:amd64:cloud", (demo.product ["2024_01_01"; "2024_01_02"]),
    (demo.product ["2024_01_01"]), "2024_01_02".
  split; [vm_compute; reflexivity|]. split; [vm_compute; reflexivity|].
  split; [|vm_compute; reflexivity]. vm_compute. eexists. reflexivity.
Defined.

(** The build after a second version of a published product has arrived
    stops with that panic. *)
Example buildProductCatalog_second_version :
  demo.firstBuild.2 = Ok () ∧
  buildProductCatalog (H := demoEnv) demo.twoVersions demo.firstBuild.1.2 "v1" "images" 2
    = nilMapPanic.
Proof. split; vm_compute; reflexivity. Qed.

End diffProducts_facts.


Module checksum_facts.
Import go_strings stream maintainer.

(** C1 (the code is wrong): for an item whose name is absent from the
    checksums map and whose type is squashfs.vcdiff or disk-kvm.img.vcdiff,
    the line the job appends to SHA256SUMS is two spaces, the item's name
    and a line feed: the checksum written is the empty string the failed
    map lookup returned, not the SHA-256 computed for the item. *)
Theorem verifyItem_appends_no_hash (root : Node) (checksumFile : string)
    (checksums : gmap string string) (key : string) (item : Item) :
  checksums !! Name item = None →
  Ftype item = ItemTypeDiskKVMDelta ∨ Ftype item = ItemTypeSquashfsDelta →
  verifyItem checksumFile checksums root (key, item) =
    AppendToFile root checksumFile ("  " +:+ Name item +:+ LF).
Proof.
  intros Habsent Hdelta. unfold verifyItem. simpl. rewrite Habsent. simpl.
  destruct Hdelta as [-> | ->]; reflexivity.
Qed.

(** The job for an uploaded version with a checksum file: the delta it
    has just generated has a SHA-256, and the line appended for it has
    none. *)
Lemma verifyItem_appends_no_hash_witness :
  demo.jobItem demo.checksummedJob "disk.2024_01_01.qcow2.vcdiff" = Some demo.deltaItem ∧
  verifyItem demo.checksumFile (ReadChecksumFile demo.uploadedSums) demo.checksummed
    ("disk.2024_01_01.qcow2.vcdiff", demo.deltaItem) =
    AppendToFile demo.checksummed demo.checksumFile
      ("  " +:+ "disk.2024_01_01.qcow2.vcdiff" +:+ LF) ∧
  demo.bytesAt demo.checksummedJob.1 demo.checksumFile
    = Some (demo.uploadedSums +:+ "  disk.2024_01_01.qcow2.vcdiff" +:+ LF).
Proof.
  split; [vm_compute; reflexivity|]. split; [|vm_compute; reflexivity].
  apply (verifyItem_appends_no_hash demo.checksummed demo.checksumFile
           (ReadChecksumFile demo.uploadedSums) "disk.2024_01_01.qcow2.vcdiff"
           demo.deltaItem).
  - vm_compute. reflexivity.
  - left. reflexivity.
Defined.

End checksum_facts.

Module hidden_facts.
Import go_strings stream maintainer.

(** C3 (the code is wrong): a version directory whose name begins with a
    dot is discovered like any other: GetProduct has no filter on the
    name, so the hidden, complete version .2024_01_02 is in the version
    map of the product, and the build puts it into the catalog. *)
Theorem GetProduct_includes_hidden_version :
  HasPrefix ".2024_01_02" "." = true ∧
  demo.versionNames (GetProduct (H := demoEnv) demo.hiddenVersion demo.productPath)
    = [".2024_01_02"; "2024_01_01"] ∧
  demo.catalogVersions
    (buildProductCatalog (H := demoEnv) demo.hiddenVersion [] "v1" "images" 2)
    "ubuntu:noble:amd64:cloud"
    = [".2024_01_02"; "2024_01_01"].
Proof. split; [|split]; vm_compute; reflexivity. Qed.

End hidden_facts.

Module buildIndex_facts.
Import go_strings stream maintainer.

(** C6 (the code is wrong): with a stream named index, the catalog of the
    stream and the index are staged under the same temporary name, and
    the first rename puts the index in place before the catalog of the
    stream images is: the history of the metadata directory has a
    snapshot in which streams/v1/index.json lists streams/v1/images.json,
    which is not there yet. The last rename then fails. *)
Theorem buildIndex_index_before_catalog :
  existsb (demo.danglingIndex "streams/v1/index.json") demo.indexStreamBuild.1.2 = true ∧
  demo.indexStreamBuild.2 = Err (ErrNotExist "streams/v1/.index.json.tmp").
Proof. split; vm_compute; reflexivity. Qed.

(** Without such a stream no snapshot of the build has a dangling index. *)
Example buildIndex_first_build :
  existsb (demo.danglingIndex "streams/v1/index.json") demo.firstBuild.1.2 = false ∧
  demo.firstBuild.2 = Ok () ∧
  (mode <$> current demo.firstBuild.1.2 !! "streams/v1/index.json") = Some (Some 420) ∧
  (mode <$> current demo.firstBuild.1.2 !! "streams/v1/images.json") = Some (Some 420).
Proof. repeat split; vm_compute; reflexivity. Qed.

End buildIndex_facts.

(** ** The prune command *)

Module prune_facts.
Import go_strings stream maintainer GetVersion_facts diffProducts_facts stream_facts.


Section with_env.
Context `{Env}.



End with_env.


(** The versions kept and the directories left in that scenario. *)
Example pruneProduct_four_of_six :
  merge_sort String.le
    (map_to_list (pruneProduct (H := demoEnv) 2 demo.fourVersions demo.sixEntries).1).*1
    = ["2025"; "2026"] ∧
  NodeName <$> (pruneProduct (H := demoEnv) 2 demo.fourVersions demo.sixEntries).2
    = ["2025"; "2026"; "2027"; "2028"].
Proof. split; vm_compute; reflexivity. Qed.


(** At least one version must be retained. *)
Example pruneStreamProductVersions_keep_zero :
  (pruneStreamProductVersions (H := demoEnv) demo.arrived demo.publishedBuild.1.2 "v1" "images" 0).2
    = Err (ErrOther "At least 1 product version must be retained").
Proof. reflexivity. Qed.

End prune_facts.
